(** * Wholecell API proxy (wholecell-proxy.py): shallow embedding and
      verification of its forwarding contract.

    The Flask application is modelled as pure functions in a small
    state-and-exception monad.  The state is the log of outbound requests
    (every [requests.get] appends to it); the upstream service is an oracle
    that answers the n-th outbound request; the wall clock is a parameter.
    Log lines written through [logger] are observability only and are
    modelled where a property speaks about them (process start-up). *)

From Stdlib Require Import ZArith Ascii String PrimFloat.
From stdpp Require Import base decidable option list strings pretty gmap.

Local Open Scope Z_scope.
Set Warnings "-register-all".

(** ** Python values

    Every value this program handles is JSON-shaped: [None], [bool], [int],
    [float], [str], [list] and [dict].  A [dict] keeps insertion order, so it
    is an association list; lookups take the first binding of a key. *)

Inductive json : Type :=
| JNull
| JBool (b : bool)
| JInt (n : Z)
| JFloat (f : float)
| JStr (s : string)
| JList (l : list json)
| JDict (d : list (string * json)).

(** [bool(x)]: Python truthiness. *)
Definition truthy (x : json) : bool :=
  match x with
  | JNull => false
  | JBool b => b
  | JInt n => negb (n =? 0)
  | JFloat f => negb (PrimFloat.eqb f 0%float)
  | JStr s => negb (bool_decide (s = ""))
  | JList l => match l with [] => false | _ :: _ => true end
  | JDict d => match d with [] => false | _ :: _ => true end
  end.

(** [type(x).__name__] *)
Definition type_name (x : json) : string :=
  match x with
  | JNull => "NoneType"
  | JBool _ => "bool"
  | JInt _ => "int"
  | JFloat _ => "float"
  | JStr _ => "str"
  | JList _ => "list"
  | JDict _ => "dict"
  end.

Definition isinstance_dict (x : json) : bool :=
  match x with JDict _ => true | _ => false end.

Definition isinstance_list (x : json) : bool :=
  match x with JList _ => true | _ => false end.

(** Dictionary primitives on association lists. *)
Fixpoint dict_lookup (d : list (string * json)) (k : string) : option json :=
  match d with
  | [] => None
  | (k', v) :: rest => if bool_decide (k' = k) then Some v else dict_lookup rest k
  end.

(** [d[k] = v]: overwrite in place, or append a new key at the end. *)
Fixpoint dict_set (d : list (string * json)) (k : string) (v : json)
  : list (string * json) :=
  match d with
  | [] => [(k, v)]
  | (k', v') :: rest =>
      if bool_decide (k' = k) then (k', v) :: rest
      else (k', v') :: dict_set rest k v
  end.

Definition dict_keys (d : list (string * json)) : list string := d.*1.

(** An optional string as a Python value ([None] or a [str]). *)
Definition json_of_opt_str (o : option string) : json :=
  match o with None => JNull | Some s => JStr s end.

(** ** Exceptions

    A raised exception is described by what the [except] clauses of the
    program can observe: whether it is an instance of
    [requests.exceptions.Timeout], whether it is an instance of
    [requests.exceptions.ConnectionError], and [str(e)].  (In [requests]
    a connect-timeout is an instance of both classes.) *)

Record PyExn : Type := mkExn {
  exn_is_timeout : bool;
  exn_is_connection_error : bool;
  exn_str : string
}.

Definition AttributeError (msg : string) : PyExn := mkExn false false msg.
Definition KeyError (msg : string) : PyExn := mkExn false false msg.

(** ** Outbound requests and the upstream oracle *)

Record Request : Type := mkRequest {
  req_url : string;
  req_headers : list (string * string);
  req_params : option (list (string * string));
  req_timeout : Z
}.

(** What [requests.get] hands back when it returns: the status code, and
    what [response.json()] does when called (the decoded body, or the
    exception the decoder raises). *)
Record Response : Type := mkResponse {
  status_code : Z;
  json_body : PyExn + json
}.

(** The answer of the network to the n-th outbound request of a run. *)
Definition Upstream : Type := nat → Request → PyExn + Response.

(** ** The monad: a log of outbound requests, and exceptions *)

Definition M (A : Type) : Type := list Request → (PyExn + A) * list Request.

Definition raise {A} (e : PyExn) : M A := λ log, (inl e, log).

Definition ret {A} (a : A) : M A := λ log, (inr a, log).

Definition bind {A B} (m : M A) (k : A → M B) : M B :=
  λ log, match m log with
         | (inl e, log') => (inl e, log')
         | (inr a, log') => k a log'
         end.

Notation "'do' x <- m ; k" := (bind m (λ x, k))
  (at level 10, x pattern, m at level 100, k at level 200,
   format "'[v' 'do'  x  <-  m ; '/' k ']'").

(** [try: m except Exception as e: h e] *)
Definition try_except {A} (m : M A) (h : PyExn → M A) : M A :=
  λ log, match m log with
         | (inl e, log') => h e log'
         | (inr a, log') => (inr a, log')
         end.

Definition lift_result {A} (r : PyExn + A) : M A := λ log, (r, log).

(** [requests.get]: one outbound request, recorded in the log. *)
Definition requests_get (up : Upstream) (rq : Request) : M Response :=
  λ log, (up (length log) rq, log ++ [rq]).

Definition run {A} (m : M A) : (PyExn + A) * list Request := m [].

(** ** Configuration, the Basic-Auth header and process start-up *)

(** [base64.b64encode] on a byte string. *)
Definition b64_alphabet : string :=
  "ABCDEFGHIJKLMNOPQRSTUVWXYZabcdefghijklmnopqrstuvwxyz0123456789+/".

Definition b64_digit (n : N) : ascii :=
  default "="%char (String.get (N.to_nat n) b64_alphabet).

Fixpoint b64encode_bytes (bs : list N) : string :=
  match bs with
  | [] => ""
  | [a] =>
      String (b64_digit (a / 4)%N)
        (String (b64_digit ((a mod 4) * 16)%N) "==")
  | [a; b] =>
      String (b64_digit (a / 4)%N)
        (String (b64_digit ((a mod 4) * 16 + b / 16)%N)
           (String (b64_digit ((b mod 16) * 4)%N) "="))
  | a :: b :: c :: rest =>
      String (b64_digit (a / 4)%N)
        (String (b64_digit ((a mod 4) * 16 + b / 16)%N)
           (String (b64_digit ((b mod 16) * 4 + c / 64)%N)
              (String (b64_digit (c mod 64)%N) (b64encode_bytes rest))))
  end.

Fixpoint bytes_of_string (s : string) : list N :=
  match s with
  | EmptyString => []
  | String c s' => N_of_ascii c :: bytes_of_string s'
  end.

(** [s.encode('ascii')]: fails on any character outside ASCII. *)
Definition encode_ascii (s : string) : PyExn + list N :=
  let bs := bytes_of_string s in
  if forallb (λ b, (b <? 128)%N) bs then inr bs
  else inl (mkExn false false "UnicodeEncodeError").

(** Truthiness of a value that is [None] or a [str]. *)
Definition str_truthy (o : option string) : bool :=
  match o with
  | Some s => negb (bool_decide (s = ""))
  | None => false
  end.

(** The module-level globals of a process that got past the credential
    check. *)
Record Globals : Type := mkGlobals {
  WHOLECELL_APP_ID : option string;
  WHOLECELL_APP_SECRET : option string;
  WHOLECELL_API_BASE : string;
  WHOLECELL_HEADERS : list (string * string)
}.

Definition default_api_base : string :=
  "https://api.wholecell.io/api/v1/inventories".

Definition credentials_diagnostic : string :=
  "WHOLECELL_APP_ID and WHOLECELL_APP_SECRET must be set. Copy .env.example to .env and fill in your credentials.".

(** What a run of the script does that is visible from outside. *)
Inductive event : Type :=
| LogError (msg : string)
| LogInfo (msg : string)
| Traceback (e : PyExn)
| Listen (host : string) (port : Z) (debug : bool).

Record Process : Type := mkProcess {
  trace : list event;
  exit_status : option Z;
  globals : option Globals
}.

(** The top of the module: read the environment (after [load_dotenv]),
    check the credentials, build the header set. *)
Definition load_module (environ : gmap string string) : Process :=
  let app_id := environ !! "WHOLECELL_APP_ID" in
  let app_secret := environ !! "WHOLECELL_APP_SECRET" in
  let api_base := default default_api_base (environ !! "WHOLECELL_API_BASE") in
  if negb (str_truthy app_id) || negb (str_truthy app_secret) then
    mkProcess [LogError credentials_diagnostic] (Some 1) None
  else
    let auth_string := default "" app_id +:+ ":" +:+ default "" app_secret in
    match encode_ascii auth_string with
    | inl e => mkProcess [Traceback e] (Some 1) None
    | inr auth_bytes =>
        let auth_b64 := b64encode_bytes auth_bytes in
        mkProcess [] None
          (Some (mkGlobals app_id app_secret api_base
                   [("Authorization", "Basic " +:+ auth_b64);
                    ("X-App-Id", default "" app_id);
                    ("Accept", "application/json")]))
    end.

Definition str_of_bool (b : bool) : string := if b then "True" else "False".

Definition ascii_lower (c : ascii) : ascii :=
  let n := N_of_ascii c in
  if ((65 <=? n) && (n <=? 90))%N then ascii_of_N (n + 32) else c.

Fixpoint str_lower (s : string) : string :=
  match s with
  | EmptyString => EmptyString
  | String c s' => String (ascii_lower c) (str_lower s')
  end.

(** Running the file as a script: the module top, then the
    [if __name__ == '__main__'] block.  [py_int] is the builtin [int] on a
    [str] ([None] where it raises [ValueError]). *)
Definition main (py_int : string → option Z) (environ : gmap string string)
  : Process :=
  let p := load_module environ in
  match globals p with
  | None => p
  | Some g =>
      let logs :=
        [LogInfo "Starting Wholecell API Proxy Server";
         LogInfo ("API Base: " +:+ WHOLECELL_API_BASE g);
         LogInfo ("App ID configured: " +:+
                    str_of_bool (str_truthy (WHOLECELL_APP_ID g)));
         LogInfo ("App Secret configured: " +:+
                    str_of_bool (str_truthy (WHOLECELL_APP_SECRET g)))] in
      let port :=
        match environ !! "PORT" with
        | None => Some 5001
        | Some s => py_int s
        end in
      match port with
      | None =>
          mkProcess (trace p ++ logs ++ [Traceback (mkExn false false "ValueError")])
            (Some 1) (Some g)
      | Some port =>
          let debug :=
            bool_decide (str_lower (default "false" (environ !! "DEBUG")) = "true") in
          mkProcess
            (trace p ++ logs ++
               [LogInfo ("Starting server on port " +:+ pretty port);
                Listen "0.0.0.0" port debug])
            None (Some g)
      end
  end.

(** ** Inbound query parameters

    [request.args] is a Werkzeug [MultiDict]: an insertion-ordered mapping
    from each key to the list of its values, filled from the decoded
    [(key, value)] pairs of the query string in order of appearance.
    [md[k]] is the first value of [k]; [dict(md)] goes through [md.keys()]
    and [md[k]]. *)

Definition MultiDict : Type := list (string * list string).

Fixpoint md_add (k v : string) (md : MultiDict) : MultiDict :=
  match md with
  | [] => [(k, [v])]
  | (k', vs) :: rest =>
      if bool_decide (k' = k) then (k', vs ++ [v]) :: rest
      else (k', vs) :: md_add k v rest
  end.

Definition MultiDict_of_pairs (pairs : list (string * string)) : MultiDict :=
  foldl (λ md kv, md_add kv.1 kv.2 md) [] pairs.

Fixpoint md_lookup (md : MultiDict) (k : string) : option (list string) :=
  match md with
  | [] => None
  | (k', vs) :: rest => if bool_decide (k' = k) then Some vs else md_lookup rest k
  end.

Definition md_getitem (md : MultiDict) (k : string) : M string :=
  match md_lookup md k with
  | Some (v :: _) => ret v
  | _ => raise (KeyError k)
  end.

Fixpoint dict_from_keys (md : MultiDict) (keys : list string)
  : M (list (string * string)) :=
  match keys with
  | [] => ret []
  | k :: keys' =>
      do v <- md_getitem md k;
      do rest <- dict_from_keys md keys';
      ret ((k, v) :: rest)
  end.

(** [dict(request.args)] *)
Definition dict_of_MultiDict (md : MultiDict) : M (list (string * string)) :=
  dict_from_keys md md.*1.

(** ** Responses of the Flask views: [jsonify(body), status] *)

Record FlaskResponse : Type := mkFlask {
  status : Z;
  body : json
}.

(** The status the client sees: an exception that escapes a view becomes
    Flask's 500 response. *)
Definition http_status (r : PyExn + FlaskResponse) : Z :=
  match r with
  | inl _ => 500
  | inr resp => status resp
  end.

(** [x.get(k, dflt)]: only a [dict] has the method. *)
Definition py_get (x : json) (k : string) (dflt : json) : M json :=
  match x with
  | JDict d => ret (default dflt (dict_lookup d k))
  | _ => raise (AttributeError
                  ("'" +:+ type_name x +:+ "' object has no attribute 'get'"))
  end.

(** [r[k]] on a dict built by this program (the key is always there). *)
Definition subscript (r : json) (k : string) : json :=
  match r with
  | JDict d => default JNull (dict_lookup d k)
  | _ => JNull
  end.

Definition known_imeis : list string :=
  ["H95DHMF9Q1GC"; "F9FG5XAJQ1GC"; "F9GG5BXXQ1GC"].

Section Views.

Variable g : Globals.
Variable up : Upstream.
(** [datetime.utcnow().isoformat()] at the time the view builds its body. *)
Variable now : string.

Definition make_wholecell_request (url : string)
    (params : option (list (string * string)))
  : M (bool * json * option string) :=
  try_except
    (do response <- requests_get up (mkRequest url (WHOLECELL_HEADERS g) params 30);
     if bool_decide (status_code response = 200) then
       do data <- lift_result (json_body response);
       ret (true, data, None)
     else if bool_decide (status_code response = 401) then
       ret (false, JNull, Some "Authentication failed")
     else if bool_decide (status_code response = 404) then
       ret (false, JNull, Some "Not found")
     else
       ret (false, JNull, Some ("API error: " +:+ pretty (status_code response))))
    (λ e,
       if exn_is_timeout e then
         ret (false, JNull, Some "Request timed out")
       else if exn_is_connection_error e then
         ret (false, JNull, Some "Could not connect to Wholecell API")
       else
         ret (false, JNull, Some (exn_str e))).

Definition health_check : M FlaskResponse :=
  ret (mkFlask 200
          (JDict [("status", JStr "healthy");
                  ("timestamp", JStr now);
                  ("api_configured",
                   JBool (str_truthy (WHOLECELL_APP_ID g)
                          && str_truthy (WHOLECELL_APP_SECRET g)))])).

(** The query string the list view appends to the base URL. *)
Definition query_string (params : list (string * string)) : string :=
  String.concat "&" (map (λ kv, kv.1 +:+ "=" +:+ kv.2) params).

Definition failure_status (error : option string) : Z :=
  if bool_decide (error = Some "Not found") then 404 else 500.

Definition get_all_inventory (args : MultiDict) : M FlaskResponse :=
  do params <- dict_of_MultiDict args;
  let url :=
    match params with
    | [] => WHOLECELL_API_BASE g
    | _ :: _ => WHOLECELL_API_BASE g +:+ "?" +:+ query_string params
    end in
  do (success, data, error) <- make_wholecell_request url None;
  if success then
    ret (mkFlask 200 data)
  else
    ret (mkFlask 500
            (JDict [("success", JBool false);
                    ("error", json_of_opt_str error);
                    ("timestamp", JStr now)])).

Definition get_inventory_by_esn (esn : string) : M FlaskResponse :=
  let url := WHOLECELL_API_BASE g +:+ "?esn=" +:+ esn in
  do (success, data, error) <- make_wholecell_request url None;
  if success then
    ret (mkFlask 200
            (JDict [("success", JBool true);
                    ("data", data);
                    ("esn", JStr esn);
                    ("timestamp", JStr now)]))
  else
    ret (mkFlask (failure_status error)
            (JDict [("success", JBool false);
                    ("error", json_of_opt_str error);
                    ("esn", JStr esn);
                    ("timestamp", JStr now)])).

(** The structural analysis of the diagnostic view. *)
Definition analyse (data : json) : json :=
  let analysis :=
    [("response_type", JStr (type_name data));
     ("is_list", JBool (isinstance_list data));
     ("is_dict", JBool (isinstance_dict data))] in
  match data with
  | JList l =>
      let analysis := dict_set analysis "list_length" (JInt (Z.of_nat (length l))) in
      match l with
      | [] => JDict analysis
      | first :: _ =>
          JDict (dict_set analysis "first_item_keys"
                   match first with
                   | JDict d => JList (JStr <$> dict_keys d)
                   | _ => JNull
                   end)
      end
  | JDict d => JDict (dict_set analysis "keys" (JList (JStr <$> dict_keys d)))
  | _ => JDict analysis
  end.

Definition test_esn_detailed (esn : string) : M FlaskResponse :=
  let url := WHOLECELL_API_BASE g +:+ "?esn=" +:+ esn in
  do (success, data, error) <- make_wholecell_request url None;
  if success then
    ret (mkFlask 200
            (JDict [("success", JBool true);
                    ("data", data);
                    ("analysis", analyse data);
                    ("esn", JStr esn);
                    ("timestamp", JStr now);
                    ("message",
                     JStr "Check server logs for detailed response structure")]))
  else
    ret (mkFlask (failure_status error)
            (JDict [("success", JBool false);
                    ("error", json_of_opt_str error);
                    ("esn", JStr esn);
                    ("timestamp", JStr now)])).

(** The item the batch view looks into: the first element of a non-empty
    list, the value itself when it is a dict, [None] otherwise. *)
Definition select_item (data : json) : json :=
  match data with
  | JList (first :: _) => first
  | JDict _ => data
  | _ => JNull
  end.

(** The dict literal stored under ['extracted']. *)
Definition extract_fields (item : json) : M json :=
  do esn <- py_get item "esn" JNull;
  do product <- py_get item "product" JNull;
  do model <- (if isinstance_dict product then
             do p <- py_get item "product" (JDict []);
             py_get p "model" JNull
           else ret JNull);
  do variation <- py_get item "product_variation" JNull;
  do grade <- (if isinstance_dict variation then
             do v <- py_get item "product_variation" (JDict []);
             py_get v "grade" JNull
           else ret JNull);
  do price <- py_get item "total_price_paid" JNull;
  ret (JDict [("esn", esn); ("model", model); ("grade", grade);
               ("total_price_paid", price)]).

(** The part of the view that runs once a call has succeeded. *)
Definition success_entry (result : list (string * json)) (data : json)
  : M json :=
  let result := dict_set result "found" (JBool true) in
  let result := dict_set result "data" data in
  let item := select_item data in
  if truthy item then
    do extracted <- extract_fields item;
    ret (JDict (dict_set result "extracted" extracted))
  else
    ret (JDict result).

(** One turn of the loop over [known_imeis]. *)
Definition test_one_imei (imei : string) : M json :=
  let url := WHOLECELL_API_BASE g +:+ "?esn=" +:+ imei in
  do (success, data, error) <- make_wholecell_request url None;
  let result := [("imei", JStr imei); ("success", JBool success)] in
  if success then
    success_entry result data
  else
    let result := dict_set result "found" (JBool false) in
    let result := dict_set result "error" (json_of_opt_str error) in
    ret (JDict result).

Fixpoint test_loop (imeis : list string) (results : list json)
  : M (list json) :=
  match imeis with
  | [] => ret results
  | imei :: rest =>
      do result <- test_one_imei imei;
      test_loop rest (results ++ [result])
  end.

Definition test_known_imeis : M FlaskResponse :=
  do results <- test_loop known_imeis [];
  let success_count :=
    Z.of_nat (length (filter (λ r, truthy (subscript r "success") = true) results)) in
  ret (mkFlask 200
          (JDict [("total_tested", JInt (Z.of_nat (length known_imeis)));
                  ("successful", JInt success_count);
                  ("failed", JInt (Z.of_nat (length known_imeis) - success_count));
                  ("results", JList results);
                  ("timestamp", JStr now)])).

Definition get_config : M FlaskResponse :=
  ret (mkFlask 200
          (JDict [("api_base", JStr (WHOLECELL_API_BASE g));
                  ("app_id_configured", JBool (str_truthy (WHOLECELL_APP_ID g)));
                  ("app_secret_configured",
                   JBool (str_truthy (WHOLECELL_APP_SECRET g)))])).

End Views.

(** * Properties *)

(** ** The upstream client *)

(** The triple the client hands to its caller, read off the branches of
    [make_wholecell_request]; used to reason about the views. *)
Definition failure_of (e : PyExn) : bool * json * option string :=
  if exn_is_timeout e then (false, JNull, Some "Request timed out")
  else if exn_is_connection_error e then
    (false, JNull, Some "Could not connect to Wholecell API")
  else (false, JNull, Some (exn_str e)).

Definition result_of (o : PyExn + Response) : bool * json * option string :=
  match o with
  | inl e => failure_of e
  | inr resp =>
      if bool_decide (status_code resp = 200) then
        match json_body resp with
        | inr data => (true, data, None)
        | inl e => failure_of e
        end
      else if bool_decide (status_code resp = 401) then
        (false, JNull, Some "Authentication failed")
      else if bool_decide (status_code resp = 404) then
        (false, JNull, Some "Not found")
      else (false, JNull, Some ("API error: " +:+ pretty (status_code resp)))
  end.

(** The exception, if any, that reaches the [except] clauses of the client:
    raised by [requests.get] itself, or by [response.json()] on a 200
    response. *)
Definition raises (o : PyExn + Response) (e : PyExn) : Prop :=
  o = inl e ∨
  ∃ resp, o = inr resp ∧ status_code resp = 200 ∧ json_body resp = inl e.

(** A configuration and upstream behaviours for concrete scenarios. *)
Definition sample_globals : Globals :=
  mkGlobals (Some "app") (Some "secret") "https://upstream.test/inventories"
    [("Authorization", "Basic YXBwOnNlY3JldA==");
     ("X-App-Id", "app");
     ("Accept", "application/json")].

Definition always (o : PyExn + Response) : Upstream := λ _ _, o.

Definition responds (code : Z) (data : json) : PyExn + Response :=
  inr (mkResponse code (inr data)).

Definition sample_now : string := "2025-11-24T10:00:00".

(** The mapping the specification has in mind for a query string: every
    key once, in order of first appearance, with its first value. *)
Fixpoint first_values (query : list (string * string)) : list (string * string) :=
  match query with
  | [] => []
  | (k, v) :: rest => (k, v) :: filter (λ kv, kv.1 ≠ k) (first_values rest)
  end.

(** The first value a query string gives to a key. *)
Fixpoint first_binding (query : list (string * string)) (k : string)
  : option string :=
  match query with
  | [] => None
  | (k', v) :: rest =>
      if bool_decide (k' = k) then Some v else first_binding rest k
  end.

(** What [md[k]] answers for each key of a [MultiDict], in key order. *)
Definition md_heads (md : MultiDict) : list (string * string) :=
  (λ kvs, (kvs.1, default "" (head kvs.2))) <$> md.

Definition md_wf (md : MultiDict) : Prop :=
  NoDup md.*1 ∧ Forall (λ kvs, kvs.2 ≠ []) md.

(** [contains needle s]: [needle] occurs in [s] as a contiguous substring. *)
Fixpoint contains (needle s : string) : bool :=
  String.prefix needle s ||
  match s with
  | EmptyString => false
  | String _ s' => contains needle s'
  end.

(** The URL the list view requests for a given plain dict of parameters. *)
Definition inventory_url (g : Globals) (params : list (string * string))
  : string :=
  match params with
  | [] => WHOLECELL_API_BASE g
  | _ :: _ => WHOLECELL_API_BASE g +:+ "?" +:+ query_string params
  end.

(** The error envelopes of the views. *)
Definition error_envelope (now : string) (error : option string) : json :=
  JDict [("success", JBool false);
         ("error", json_of_opt_str error);
         ("timestamp", JStr now)].

Definition esn_error_envelope (now esn : string) (error : option string) : json :=
  JDict [("success", JBool false);
         ("error", json_of_opt_str error);
         ("esn", JStr esn);
         ("timestamp", JStr now)].

(** "The list view forwards every key/value pair of the query string":
    the view makes one upstream request, and each inbound pair occurs
    verbatim, as [k=v], in its URL. *)
Definition forwards_every_pair (g : Globals) (up : Upstream) (now : string)
    (query : list (string * string)) : Prop :=
  ∃ rq,
    (run (get_all_inventory g up now (MultiDict_of_pairs query))).2 = [rq] ∧
    ∀ k v, (k, v) ∈ query → contains (k +:+ "=" +:+ v) (req_url rq) = true.

(** The upstream answered with status 200 and a body that decodes as JSON. *)
Definition succeeded (o : PyExn + Response) : Prop :=
  ∃ resp data, o = inr resp ∧ status_code resp = 200 ∧ json_body resp = inr data.

(** "Not-found is surfaced as 404" for a single-call view [view]: whenever
    the upstream answers 404, the client sees 404. *)
Definition surfaces_not_found_as_404 (view : Upstream → M FlaskResponse) : Prop :=
  ∀ data, http_status (run (view (always (responds 404 data)))).1 = 404.

(** A nested lookup that degrades to [None]: the value under [inner] of the
    dict stored under [outer], when there is one. *)
Definition nested_field (d : list (string * json)) (outer inner : string) : json :=
  match dict_lookup d outer with
  | Some (JDict sub) => default JNull (dict_lookup sub inner)
  | _ => JNull
  end.

Definition extracted_of (d : list (string * json)) : json :=
  JDict [("esn", default JNull (dict_lookup d "esn"));
         ("model", nested_field d "product" "model");
         ("grade", nested_field d "product_variation" "grade");
         ("total_price_paid", default JNull (dict_lookup d "total_price_paid"))].

(** The item of the specification's example. *)
Definition reference_item : json :=
  JDict [("esn", JStr "X");
         ("product", JDict [("model", JStr "M1")]);
         ("product_variation", JDict [("grade", JStr "A")]);
         ("total_price_paid", JInt 10)].

(** "Extraction yields the four named fields" for a successful payload
    [data]: the entry built for it carries an ['extracted'] dict with
    exactly the keys esn, model, grade and total_price_paid. *)
Definition extraction_yields_four_fields (data : json) : Prop :=
  ∃ entry fields,
    run (success_entry [("imei", JStr "H95DHMF9Q1GC"); ("success", JBool true)] data)
      = (inr (JDict entry), []) ∧
    dict_lookup entry "extracted" = Some (JDict fields) ∧
    dict_keys fields = ["esn"; "model"; "grade"; "total_price_paid"].

(** The request the batch view makes for one identifier. *)
Definition imei_request (g : Globals) (imei : string) : Request :=
  mkRequest (WHOLECELL_API_BASE g +:+ "?esn=" +:+ imei) (WHOLECELL_HEADERS g) None 30.

(** A payload the extraction can handle: the item it selects is falsy (so
    extraction is skipped) or a dict. *)
Definition item_is_object_or_falsy (data : json) : Prop :=
  truthy (select_item data) = false ∨ ∃ d, select_item data = JDict d.



(** Whether an upstream outcome counts as a success for the client. *)
Definition call_succeeded (o : PyExn + Response) : bool := (result_of o).1.1.

(** A successful payload on which the batch view raises: the item it
    selects is truthy but is not a dict. *)
Definition bad_item (data : json) : bool :=
  truthy (select_item data) && negb (isinstance_dict (select_item data)).

Definition raises_on (o : PyExn + Response) : bool :=
  match result_of o with
  | (true, data, _) => bad_item data
  | (false, _, _) => false
  end.

(** The entry the batch view records for an identifier, by outcome. *)
Definition failure_entry (imei : string) (error : option string) : json :=
  JDict [("imei", JStr imei); ("success", JBool false);
         ("found", JBool false); ("error", json_of_opt_str error)].

Definition found_entry (imei : string) (data : json) : json :=
  JDict ([("imei", JStr imei); ("success", JBool true);
          ("found", JBool true); ("data", data)] ++
         match select_item data with
         | JDict (kv :: d) => [("extracted", extracted_of (kv :: d))]
         | _ => []
         end).

Definition entry_of (imei : string) (o : PyExn + Response) : json :=
  match result_of o with
  | (true, data, _) => found_entry imei data
  | (false, _, error) => failure_entry imei error
  end.

(** The outcomes of the calls the batch view makes for [imeis], the first
    of them being the [n]-th call of the run. *)
Fixpoint outcomes_from (g : Globals) (up : Upstream) (n : nat)
    (imeis : list string) : list (PyExn + Response) :=
  match imeis with
  | [] => []
  | imei :: rest => up n (imei_request g imei) :: outcomes_from g up (S n) rest
  end.

Definition attribute_error_of (item : json) : PyExn :=
  AttributeError ("'" +:+ type_name item +:+ "' object has no attribute 'get'").

(** Reading a query string back, the way a server splits it: the pairs are
    separated by [&], and each pair is cut at its first [=]. *)
Fixpoint occurs (c : ascii) (s : string) : bool :=
  match s with
  | EmptyString => false
  | String a s' => bool_decide (a = c) || occurs c s'
  end.

Fixpoint split_on (c : ascii) (s : string) : list string :=
  match s with
  | EmptyString => [EmptyString]
  | String a s' =>
      if bool_decide (a = c) then EmptyString :: split_on c s'
      else match split_on c s' with
           | h :: t => String a h :: t
           | [] => [String a EmptyString]
           end
  end.

Fixpoint partition_on (c : ascii) (s : string) : string * string :=
  match s with
  | EmptyString => (EmptyString, EmptyString)
  | String a s' =>
      if bool_decide (a = c) then (EmptyString, s')
      else (String a (partition_on c s').1, (partition_on c s').2)
  end.

Definition parse_query (s : string) : list (string * string) :=
  partition_on "="%char <$> split_on "&"%char s.

(** A string the [ascii] codec can encode. *)
Definition ascii_only (s : string) : bool :=
  forallb (λ b, (b <? 128)%N) (bytes_of_string s).

(** Credentials the module top accepts: both set, non-empty, and ASCII. *)
Definition usable_credentials (environ : gmap string string)
    (app_id app_secret : string) : Prop :=
  environ !! "WHOLECELL_APP_ID" = Some app_id ∧ app_id ≠ "" ∧
  environ !! "WHOLECELL_APP_SECRET" = Some app_secret ∧ app_secret ≠ "" ∧
  ascii_only app_id = true ∧ ascii_only app_secret = true.


Definition configured_debug (environ : gmap string string) : bool :=
  bool_decide (str_lower (default "false" (environ !! "DEBUG")) = "true").

Lemma make_wholecell_request_run g up url params log :
  make_wholecell_request g up url params log =
    (inr (result_of (up (length log)
                       (mkRequest url (WHOLECELL_HEADERS g) params 30))),
     log ++ [mkRequest url (WHOLECELL_HEADERS g) params 30]).
Proof.
  unfold make_wholecell_request, try_except, bind, requests_get, result_of.
  destruct (up _ _) as [e | resp]; simpl.
  - unfold failure_of, ret. by repeat case_match.
  - unfold ret, lift_result, failure_of.
    repeat case_bool_decide; simpl; try done.
    destruct (json_body resp) as [e | data]; simpl; try done.
    by repeat case_match.
Qed.

Lemma result_of_success o data :
  result_of o = (true, data, None) →
  ∃ resp, o = inr resp ∧ status_code resp = 200 ∧ json_body resp = inr data.
Proof.
  unfold result_of, failure_of. intros H.
  destruct o as [e | resp]; [by repeat case_match|].
  repeat case_bool_decide; try done.
  destruct (json_body resp) as [e | d] eqn:Hb; [by repeat case_match|].
  exists resp. by simplify_eq.
Qed.

Lemma result_of_failure o :
  (∀ resp data, o = inr resp → status_code resp = 200 →
                json_body resp = inr data → False) →
  ∃ msg, result_of o = (false, JNull, Some msg).
Proof.
  unfold result_of, failure_of. intros H.
  destruct o as [e | resp]; [repeat case_match; eauto|].
  repeat case_bool_decide; eauto.
  destruct (json_body resp) as [e | d] eqn:Hb; [repeat case_match; eauto|].
  exfalso. eauto.
Qed.

(** C2: every upstream outcome is mapped to exactly one result triple, and
    the call is made exactly once.  HTTP 200 with a decodable body gives
    success with the parsed body; 401 gives "Authentication failed"; 404
    gives "Not found"; any other status gives "API error: <status>"; an
    exception that is a [Timeout] gives "Request timed out"; one that is a
    [ConnectionError] (and not a [Timeout], whose clause comes first) gives
    "Could not connect to Wholecell API"; any other exception gives its own
    message. *)
Theorem make_wholecell_request_outcomes g up url params log :
  let rq := mkRequest url (WHOLECELL_HEADERS g) params 30 in
  let o := up (length log) rq in
  ∃ res,
    make_wholecell_request g up url params log = (inr res, log ++ [rq]) ∧
    (∀ resp data, o = inr resp → status_code resp = 200 →
       json_body resp = inr data → res = (true, data, None)) ∧
    (∀ resp, o = inr resp → status_code resp = 401 →
       res = (false, JNull, Some "Authentication failed")) ∧
    (∀ resp, o = inr resp → status_code resp = 404 →
       res = (false, JNull, Some "Not found")) ∧
    (∀ resp, o = inr resp → status_code resp ≠ 200 →
       status_code resp ≠ 401 → status_code resp ≠ 404 →
       res = (false, JNull, Some ("API error: " +:+ pretty (status_code resp)))) ∧
    (∀ e, raises o e → exn_is_timeout e = true →
       res = (false, JNull, Some "Request timed out")) ∧
    (∀ e, raises o e → exn_is_timeout e = false →
       exn_is_connection_error e = true →
       res = (false, JNull, Some "Could not connect to Wholecell API")) ∧
    (∀ e, raises o e → exn_is_timeout e = false →
       exn_is_connection_error e = false →
       res = (false, JNull, Some (exn_str e))).
Proof.
  intros rq o. exists (result_of o). split.
  { apply make_wholecell_request_run. }
  assert (Hraise : ∀ e, raises o e → result_of o = failure_of e).
  { intros e [-> | (resp & -> & Hs & Hb)]; [done|].
    unfold result_of. rewrite bool_decide_eq_true_2 by done. by rewrite Hb. }
  repeat split.
  - intros resp data -> Hs Hb. unfold result_of.
    rewrite bool_decide_eq_true_2 by done. by rewrite Hb.
  - intros resp -> Hs. unfold result_of. rewrite Hs. done.
  - intros resp -> Hs. unfold result_of. rewrite Hs. done.
  - intros resp -> H200 H401 H404. unfold result_of.
    by rewrite !bool_decide_eq_false_2.
  - intros e He Ht. rewrite (Hraise e He). unfold failure_of. by rewrite Ht.
  - intros e He Ht Hc. rewrite (Hraise e He). unfold failure_of.
    by rewrite Ht, Hc.
  - intros e He Ht Hc. rewrite (Hraise e He). unfold failure_of.
    by rewrite Ht, Hc.
Qed.

Lemma make_wholecell_request_outcomes_witness :
  (make_wholecell_request sample_globals (always (responds 200 (JList []))) "u" None []).1
    = inr (true, JList [], None) ∧
  (make_wholecell_request sample_globals (always (responds 503 JNull)) "u" None []).1
    = inr (false, JNull, Some "API error: 503") ∧
  (make_wholecell_request sample_globals (always (inl (mkExn true true "t"))) "u" None []).1
    = inr (false, JNull, Some "Request timed out").
Proof.
  split; [|split].
  - destruct (make_wholecell_request_outcomes sample_globals
                (always (responds 200 (JList []))) "u" None [])
      as (res & Hrun & H200 & _).
    rewrite Hrun. simpl. f_equal. by eapply H200.
  - destruct (make_wholecell_request_outcomes sample_globals
                (always (responds 503 JNull)) "u" None [])
      as (res & Hrun & _ & _ & _ & Hother & _).
    rewrite Hrun. simpl. f_equal. by eapply (Hother _ eq_refl).
  - destruct (make_wholecell_request_outcomes sample_globals
                (always (inl (mkExn true true "t"))) "u" None [])
      as (res & Hrun & _ & _ & _ & _ & Htimeout & _).
    rewrite Hrun. simpl. f_equal. apply (Htimeout (mkExn true true "t")); [by left|done].
Defined.

(** ** Query parameters: [dict(request.args)] keeps first values *)

Lemma md_add_keys k v md :
  (md_add k v md).*1 = if decide (k ∈ md.*1) then md.*1 else md.*1 ++ [k].
Proof.
  induction md as [| [k' vs] md IH].
  - done.
  - cbn [md_add]. case_bool_decide as Hk.
    + subst. rewrite !fmap_cons. cbn [fst].
      rewrite decide_True; [done | by left].
    + rewrite !fmap_cons, IH. cbn [fst].
      destruct (decide (k ∈ md.*1)) as [Hin | Hin].
      * rewrite decide_True; [done | by right].
      * rewrite decide_False; [done|].
        intros [?|?]%elem_of_cons; congruence.
Qed.

Lemma md_add_heads k v md :
  Forall (λ kvs, kvs.2 ≠ []) md →
  md_heads (md_add k v md) =
    if decide (k ∈ md.*1) then md_heads md else md_heads md ++ [(k, v)].
Proof.
  unfold md_heads. induction md as [| [k' vs] md IH]; intros Hne.
  - done.
  - apply Forall_cons in Hne as [Hvs Hne]. cbn [snd] in Hvs.
    cbn [md_add]. case_bool_decide as Hk.
    + subst. rewrite !fmap_cons. cbn [fst snd].
      rewrite decide_True by (by left).
      by destruct vs.
    + rewrite !fmap_cons, (IH Hne). cbn [fst snd].
      destruct (decide (k ∈ md.*1)) as [Hin | Hin].
      * rewrite decide_True; [done | by right].
      * rewrite decide_False; [done|].
        intros [?|?]%elem_of_cons; congruence.
Qed.

Lemma md_add_wf k v md : md_wf md → md_wf (md_add k v md).
Proof.
  intros [Hnd Hne]. split.
  - rewrite md_add_keys. case_decide; [done|].
    apply NoDup_app. split_and!; [done | | apply NoDup_singleton].
    intros x Hx ->%list_elem_of_singleton. done.
  - clear Hnd. induction md as [| [k' vs] md IH]; simpl.
    + by repeat constructor.
    + apply Forall_cons in Hne as [Hvs Hne].
      case_bool_decide; constructor; simpl; auto.
      by destruct vs.
Qed.

Lemma md_wf_nil : md_wf [].
Proof. split; constructor. Qed.

Lemma md_lookup_elem md k vs :
  NoDup md.*1 → (k, vs) ∈ md → md_lookup md k = Some vs.
Proof.
  induction md as [| [k' vs'] md IH]; simpl; intros Hnd Hin.
  - by apply elem_of_nil in Hin.
  - apply NoDup_cons in Hnd as [Hk' Hnd].
    apply elem_of_cons in Hin as [Heq | Hin].
    + simplify_eq. by rewrite bool_decide_eq_true_2.
    + rewrite bool_decide_eq_false_2; [by apply IH|].
      intros ->. apply Hk'. by apply (list_elem_of_fmap_2 fst _ (k, vs)).
Qed.

Lemma dict_from_keys_heads md sub log :
  md_wf md → sub ⊆ md →
  dict_from_keys md sub.*1 log = (inr (md_heads sub), log).
Proof.
  intros [Hnd Hne]. induction sub as [| [k vs] sub IH]; intros Hsub.
  - done.
  - assert (Hin : (k, vs) ∈ md) by (apply Hsub; by left).
    rewrite fmap_cons. cbn [fst dict_from_keys].
    unfold bind at 1, md_getitem. rewrite (md_lookup_elem _ _ _ Hnd Hin).
    rewrite Forall_forall in Hne. specialize (Hne _ Hin). cbn [snd] in Hne.
    destruct vs as [| v vs]; [done|]. unfold ret at 1. unfold bind.
    rewrite IH; [done|]. intros x Hx. apply Hsub. by right.
Qed.

Lemma filter_not_in_snoc (acc : list string) k (l : list (string * string)) :
  filter (λ kv, kv.1 ∉ acc ++ [k]) l =
  filter (λ kv, kv.1 ∉ acc) (filter (λ kv, kv.1 ≠ k) l).
Proof.
  rewrite list_filter_filter. apply list_filter_iff. intros [k' v']. simpl.
  rewrite elem_of_app, list_elem_of_singleton. tauto.
Qed.

Lemma filter_not_in_absorb (acc : list string) k (l : list (string * string)) :
  k ∈ acc →
  filter (λ kv, kv.1 ∉ acc) (filter (λ kv, kv.1 ≠ k) l) =
  filter (λ kv, kv.1 ∉ acc) l.
Proof.
  intros Hk. rewrite list_filter_filter. apply list_filter_iff.
  intros [k' v']. simpl. split; [tauto|]. intros Hn. split; [done|].
  intros ->. done.
Qed.

Lemma foldl_md_add acc query :
  md_wf acc →
  md_wf (foldl (λ md kv, md_add kv.1 kv.2 md) acc query) ∧
  md_heads (foldl (λ md kv, md_add kv.1 kv.2 md) acc query) =
    md_heads acc ++ filter (λ kv, kv.1 ∉ acc.*1) (first_values query).
Proof.
  revert acc. induction query as [| [k v] rest IH]; intros acc Hwf; simpl.
  - split; [done|]. by rewrite filter_nil, app_nil_r.
  - destruct (IH (md_add k v acc) (md_add_wf k v acc Hwf)) as [Hwf' Hheads].
    split; [done|]. rewrite Hheads, md_add_keys, md_add_heads by apply Hwf.
    destruct (decide (k ∈ acc.*1)) as [Hin | Hin].
    + rewrite filter_cons_False by (simpl; tauto).
      by rewrite filter_not_in_absorb.
    + rewrite filter_cons_True by done.
      rewrite filter_not_in_snoc. by rewrite <- app_assoc.
Qed.

(** [dict(request.args)] never raises on the arguments of a parsed query
    string, and is the mapping of first values. *)
Lemma dict_of_MultiDict_first_values query log :
  dict_of_MultiDict (MultiDict_of_pairs query) log =
    (inr (first_values query), log).
Proof.
  unfold dict_of_MultiDict, MultiDict_of_pairs.
  destruct (foldl_md_add [] query md_wf_nil) as [Hwf Hheads].
  rewrite dict_from_keys_heads by done. rewrite Hheads. simpl.
  f_equal. f_equal. clear. induction (first_values query) as [| x l IH]; [done|].
  rewrite filter_cons_True by apply not_elem_of_nil. by rewrite IH.
Qed.

Lemma first_values_elem query k v :
  (k, v) ∈ first_values query ↔ first_binding query k = Some v.
Proof.
  induction query as [| [k0 v0] rest IH]; simpl.
  - split; [by intros ?%elem_of_nil | done].
  - rewrite elem_of_cons, list_elem_of_filter, IH. simpl.
    case_bool_decide as Hk.
    + subst. split; [intros [? | [? _]]; by simplify_eq | intros; left; by simplify_eq].
    + split; [intros [? | [_ ?]]; by simplify_eq | intros; right; split; [congruence | done]].
Qed.

Lemma first_values_NoDup query : NoDup (first_values query).*1.
Proof.
  induction query as [| [k0 v0] rest IH]; simpl; [constructor|].
  apply NoDup_cons. split.
  - intros ([k v] & Hk & Hin)%list_elem_of_fmap. simpl in Hk. subst.
    apply list_elem_of_filter in Hin as [Hne _]. done.
  - apply (sublist_NoDup _ (first_values rest).*1); [exact IH|].
    apply fmap_sublist, sublist_filter.
Qed.

(** ** Strings *)

Lemma prefix_app a b : String.prefix a (a +:+ b) = true.
Proof.
  induction a as [| c a IH]; simpl.
  - by destruct b.
  - destruct (ascii_dec c c); [exact IH | done].
Qed.

Lemma prefix_app_r n s post :
  String.prefix n s = true → String.prefix n (s +:+ post) = true.
Proof.
  revert s. induction n as [| c n IH]; intros s; simpl.
  - intros _. by destruct (s +:+ post).
  - destruct s as [| c' s]; [done|]. simpl.
    destruct (ascii_dec c c'); [apply IH | done].
Qed.

Lemma contains_app_l n s post :
  contains n s = true → contains n (s +:+ post) = true.
Proof.
  induction s as [| c s IH]; simpl.
  - rewrite orb_false_r. intros H.
    destruct n; [|done]. by destruct post.
  - intros [H | H]%orb_true_iff; apply orb_true_iff.
    + left. by apply (prefix_app_r n (String c s) post).
    + right. by apply IH.
Qed.

Lemma contains_app_r n pre s :
  contains n s = true → contains n (pre +:+ s) = true.
Proof.
  intros H. induction pre as [| c pre IH]; [done|].
  simpl. apply orb_true_iff. by right.
Qed.

Lemma contains_prefix n s : String.prefix n s = true → contains n s = true.
Proof. intros H. destruct s; cbn [contains]; by rewrite H. Qed.

Lemma contains_self_app n post : contains n (n +:+ post) = true.
Proof. apply contains_prefix, prefix_app. Qed.

Lemma contains_concat sep x (l : list string) :
  x ∈ l → contains x (String.concat sep l) = true.
Proof.
  induction l as [| y l IH]; [by intros ?%elem_of_nil|].
  intros [-> | Hx]%elem_of_cons.
  - destruct l as [| z l]; simpl.
    + apply contains_prefix. clear. induction y as [| c y IH]; simpl; [done|].
      destruct (ascii_dec c c); [exact IH | done].
    + apply contains_self_app.
  - destruct l as [| z l]; [by apply elem_of_nil in Hx|].
    change (String.concat sep (y :: z :: l))
      with (y +:+ sep +:+ String.concat sep (z :: l)).
    by apply contains_app_r, contains_app_r, IH.
Qed.

(** Every parameter of the plain dict occurs verbatim in the URL. *)
Lemma inventory_url_contains g params k v :
  (k, v) ∈ params → contains (k +:+ "=" +:+ v) (inventory_url g params) = true.
Proof.
  intros Hin. unfold inventory_url.
  destruct params as [| p params]; [by apply elem_of_nil in Hin|].
  apply contains_app_r, contains_app_r. unfold query_string.
  apply contains_concat.
  by apply (list_elem_of_fmap_2 (λ kv, kv.1 +:+ "=" +:+ kv.2) _ (k, v)).
Qed.

(** ** What each single-call view computes *)

Lemma get_all_inventory_run g up now query log :
  let rq := mkRequest (inventory_url g (first_values query))
              (WHOLECELL_HEADERS g) None 30 in
  get_all_inventory g up now (MultiDict_of_pairs query) log =
    (inr (match result_of (up (length log) rq) with
          | (true, data, _) => mkFlask 200 data
          | (false, _, error) => mkFlask 500 (error_envelope now error)
          end),
     log ++ [rq]).
Proof.
  intros rq. unfold get_all_inventory, bind.
  rewrite dict_of_MultiDict_first_values.
  change (match first_values query with
          | [] => WHOLECELL_API_BASE g
          | _ :: _ => WHOLECELL_API_BASE g +:+ "?" +:+ query_string (first_values query)
          end) with (inventory_url g (first_values query)).
  rewrite make_wholecell_request_run. fold rq.
  by destruct (result_of _) as [[[] data] error].
Qed.

Lemma get_inventory_by_esn_run g up now esn log :
  let rq := mkRequest (WHOLECELL_API_BASE g +:+ "?esn=" +:+ esn)
              (WHOLECELL_HEADERS g) None 30 in
  get_inventory_by_esn g up now esn log =
    (inr (match result_of (up (length log) rq) with
          | (true, data, _) =>
              mkFlask 200 (JDict [("success", JBool true); ("data", data);
                                  ("esn", JStr esn); ("timestamp", JStr now)])
          | (false, _, error) =>
              mkFlask (failure_status error) (esn_error_envelope now esn error)
          end),
     log ++ [rq]).
Proof.
  intros rq. unfold get_inventory_by_esn, bind.
  rewrite make_wholecell_request_run. fold rq.
  by destruct (result_of _) as [[[] data] error].
Qed.

Lemma test_esn_detailed_run g up now esn log :
  let rq := mkRequest (WHOLECELL_API_BASE g +:+ "?esn=" +:+ esn)
              (WHOLECELL_HEADERS g) None 30 in
  test_esn_detailed g up now esn log =
    (inr (match result_of (up (length log) rq) with
          | (true, data, _) =>
              mkFlask 200
                (JDict [("success", JBool true); ("data", data);
                        ("analysis", analyse data);
                        ("esn", JStr esn); ("timestamp", JStr now);
                        ("message",
                         JStr "Check server logs for detailed response structure")])
          | (false, _, error) =>
              mkFlask (failure_status error) (esn_error_envelope now esn error)
          end),
     log ++ [rq]).
Proof.
  intros rq. unfold test_esn_detailed, bind.
  rewrite make_wholecell_request_run. fold rq.
  by destruct (result_of _) as [[[] data] error].
Qed.

Lemma result_of_succeeded o resp data :
  o = inr resp → status_code resp = 200 → json_body resp = inr data →
  result_of o = (true, data, None).
Proof.
  intros -> Hs Hb. unfold result_of.
  rewrite bool_decide_eq_true_2 by done. by rewrite Hb.
Qed.

Lemma result_of_not_succeeded o :
  ¬ succeeded o → ∃ msg, result_of o = (false, JNull, Some msg).
Proof.
  intros H. apply result_of_failure. intros resp data ? ? ?.
  apply H. by exists resp, data.
Qed.

(** ** The list view, [/api/inventory] *)

(** Not every pair of a query string is forwarded: when the query string
    repeats a key, only the first of its values reaches the upstream URL. *)
Lemma get_all_inventory_drops_repeated_key :
  ¬ forwards_every_pair sample_globals (always (responds 200 JNull)) sample_now
      [("status", "a"); ("status", "b")].
Proof.
  intros (rq & Hlog & Hall).
  vm_compute in Hlog. injection Hlog as <-.
  specialize (Hall "status" "b"). vm_compute in Hall.
  enough (false = true) by done. apply Hall.
  apply elem_of_cons. right. apply elem_of_cons. by left.
Qed.

(** C1, at an input where it fails: the inbound query string is
    [status=a&status=b].  The one upstream request of the view is for
    [...?status=a]: the pair [status=b] is not forwarded, although the
    view's own comment ("Forward ALL query params") and docstring say that
    every query parameter is. *)
Theorem get_all_inventory_forwards_one_value_of_repeated_key :
  run (get_all_inventory sample_globals (always (responds 200 JNull)) sample_now
         (MultiDict_of_pairs [("status", "a"); ("status", "b")]))
  = (inr (mkFlask 200 JNull),
     [mkRequest "https://upstream.test/inventories?status=a"
        (WHOLECELL_HEADERS sample_globals) None 30]) ∧
  contains "status=b" "https://upstream.test/inventories?status=a" = false.
Proof. split; reflexivity. Qed.

(** What the list view does forward: for every query string it makes
    exactly one upstream request; its URL carries every key once, with the
    first value the query string gives to that key, verbatim as [k=v] (no
    encoding), joined by [&] after the base URL.  When the upstream answers
    200 with a JSON body the view hands that parsed value to [jsonify] with
    status 200; on every other outcome it returns status 500 with the
    envelope [{success: false, error, timestamp}]. *)
Theorem get_all_inventory_forwards_first_values g up now query :
  let rq := mkRequest (inventory_url g (first_values query))
              (WHOLECELL_HEADERS g) None 30 in
  let r := run (get_all_inventory g up now (MultiDict_of_pairs query)) in
  r.2 = [rq] ∧
  (∀ k v, first_binding query k = Some v →
          contains (k +:+ "=" +:+ v) (req_url rq) = true) ∧
  (∀ resp data, up 0%nat rq = inr resp → status_code resp = 200 →
                json_body resp = inr data → r.1 = inr (mkFlask 200 data)) ∧
  (¬ succeeded (up 0%nat rq) →
   ∃ msg, r.1 = inr (mkFlask 500 (error_envelope now (Some msg)))).
Proof.
  intros rq r. subst r. unfold run. rewrite get_all_inventory_run. fold rq.
  cbn [fst snd length app].
  split_and!.
  - done.
  - intros k v Hkv. apply inventory_url_contains. by apply first_values_elem.
  - intros resp data Ho Hs Hb. by rewrite (result_of_succeeded _ _ _ Ho Hs Hb).
  - intros Hfail. destruct (result_of_not_succeeded _ Hfail) as [msg ->].
    by exists msg.
Qed.

Lemma get_all_inventory_forwards_first_values_witness :
  (run (get_all_inventory sample_globals (always (responds 200 (JList [JInt 7])))
          sample_now (MultiDict_of_pairs [("page", "2"); ("status", "a"); ("page", "9")]))).1
    = inr (mkFlask 200 (JList [JInt 7])) ∧
  ∃ msg,
    (run (get_all_inventory sample_globals (always (responds 404 JNull))
            sample_now (MultiDict_of_pairs [("page", "2")]))).1
      = inr (mkFlask 500 (error_envelope sample_now (Some msg))).
Proof.
  split.
  - destruct (get_all_inventory_forwards_first_values sample_globals
                (always (responds 200 (JList [JInt 7]))) sample_now
                [("page", "2"); ("status", "a"); ("page", "9")])
      as (_ & _ & Hok & _).
    by eapply Hok.
  - destruct (get_all_inventory_forwards_first_values sample_globals
                (always (responds 404 JNull)) sample_now [("page", "2")])
      as (_ & _ & _ & Hfail).
    apply Hfail. intros (resp & data & Ho & Hs & _).
    injection Ho as <-. discriminate Hs.
Defined.

(** The values are pasted into the URL as they are: a value holding [&] or
    [=] changes what the upstream parses. *)
Example query_values_are_not_encoded :
  (run (get_all_inventory sample_globals (always (responds 200 JNull)) sample_now
          (MultiDict_of_pairs [("q", "a&b=c")]))).2
  = [mkRequest "https://upstream.test/inventories?q=a&b=c"
       (WHOLECELL_HEADERS sample_globals) None 30].
Proof. reflexivity. Qed.

(** C10: the list view turns the inbound arguments into a plain dict before
    it builds the URL: the dict has every key once, bound to the first value
    the query string gives it; every later value of a repeated key is absent
    from the dict, and the single upstream URL is built from this dict
    alone. *)
Theorem repeated_keys_keep_first_value g up now query :
  ∃ params,
    run (dict_of_MultiDict (MultiDict_of_pairs query)) = (inr params, []) ∧
    NoDup params.*1 ∧
    (∀ k v, (k, v) ∈ params ↔ first_binding query k = Some v) ∧
    (∀ k v, (k, v) ∈ query → first_binding query k ≠ Some v → (k, v) ∉ params) ∧
    (run (get_all_inventory g up now (MultiDict_of_pairs query))).2 =
      [mkRequest (inventory_url g params) (WHOLECELL_HEADERS g) None 30].
Proof.
  exists (first_values query). split_and!.
  - apply dict_of_MultiDict_first_values.
  - apply first_values_NoDup.
  - apply first_values_elem.
  - intros k v _ Hne Hin. by apply Hne, first_values_elem.
  - unfold run. by rewrite get_all_inventory_run.
Qed.

Lemma repeated_keys_keep_first_value_witness :
  ∃ params,
    run (dict_of_MultiDict (MultiDict_of_pairs [("a", "1"); ("b", "2"); ("a", "3")]))
      = (inr params, []) ∧
    ("a", "1") ∈ params ∧ ("a", "3") ∉ params.
Proof.
  destruct (repeated_keys_keep_first_value sample_globals
              (always (responds 200 JNull)) sample_now
              [("a", "1"); ("b", "2"); ("a", "3")])
    as (params & Hrun & _ & Hiff & Hdrop & _).
  exists params. split_and!.
  - exact Hrun.
  - by apply Hiff.
  - apply Hdrop; [|done].
    apply elem_of_cons. right. apply elem_of_cons. right. apply elem_of_cons. by left.
Defined.

(** ** Failures, view by view *)

Lemma result_of_raises o e : raises o e → result_of o = failure_of e.
Proof.
  intros [-> | (resp & -> & Hs & Hb)]; [done|].
  unfold result_of. rewrite bool_decide_eq_true_2 by done. by rewrite Hb.
Qed.

Lemma result_of_status o resp :
  o = inr resp → status_code resp ≠ 200 →
  result_of o =
    (false, JNull,
     Some (if bool_decide (status_code resp = 401) then "Authentication failed"
           else if bool_decide (status_code resp = 404) then "Not found"
           else "API error: " +:+ pretty (status_code resp))).
Proof.
  intros -> Hs. unfold result_of. rewrite bool_decide_eq_false_2 by done.
  by repeat case_bool_decide.
Qed.

Lemma failure_of_timeout e :
  exn_is_timeout e = true →
  failure_of e = (false, JNull, Some "Request timed out").
Proof. intros H. unfold failure_of. by rewrite H. Qed.

Lemma failure_of_connection e :
  exn_is_timeout e = false → exn_is_connection_error e = true →
  failure_of e = (false, JNull, Some "Could not connect to Wholecell API").
Proof. intros H1 H2. unfold failure_of. by rewrite H1, H2. Qed.

Lemma failure_of_other e :
  exn_is_timeout e = false → exn_is_connection_error e = false →
  failure_of e = (false, JNull, Some (exn_str e)).
Proof. intros H1 H2. unfold failure_of. by rewrite H1, H2. Qed.

Lemma api_error_is_not_not_found s : "API error: " +:+ s ≠ "Not found".
Proof.
  intros H. apply (f_equal (String.get 0)) in H. vm_compute in H. discriminate.
Qed.

Lemma failure_status_other msg : msg ≠ "Not found" → failure_status (Some msg) = 500.
Proof.
  intros H. unfold failure_status. rewrite bool_decide_eq_false_2; [done|].
  intros [=]. done.
Qed.

(** The view tells not-found from the other failures by the error text
    alone, so an exception that reached the catch-all clause of the client
    with the very message "Not found" would be answered with 404.  None of
    the exceptions that [requests], [urllib3], [http.client] or the JSON
    decoder raise prints as that text; the theorem for the view below is
    stated for the exceptions that do occur. *)
Example get_inventory_by_esn_confuses_exception_with_not_found :
  run (get_inventory_by_esn sample_globals
         (always (inl (mkExn false false "Not found"))) sample_now "H95DHMF9Q1GC")
  = (inr (mkFlask 404
            (esn_error_envelope sample_now "H95DHMF9Q1GC" (Some "Not found"))),
     [mkRequest "https://upstream.test/inventories?esn=H95DHMF9Q1GC"
        (WHOLECELL_HEADERS sample_globals) None 30]).
Proof. reflexivity. Qed.

(** What the fetch-by-identifier view does keep of its contract: upstream
    404 gives local 404 with [success: false]; upstream 200 with a JSON body
    gives local 200 with [success: true], the data and the identifier as
    given; any other failure whose message is not the text "Not found" gives
    local 500. *)
Lemma get_inventory_by_esn_contract g up now esn :
  let rq := mkRequest (WHOLECELL_API_BASE g +:+ "?esn=" +:+ esn)
              (WHOLECELL_HEADERS g) None 30 in
  let r := run (get_inventory_by_esn g up now esn) in
  r.2 = [rq] ∧
  (∀ resp, up 0%nat rq = inr resp → status_code resp = 404 →
     r.1 = inr (mkFlask 404 (esn_error_envelope now esn (Some "Not found")))) ∧
  (∀ resp data, up 0%nat rq = inr resp → status_code resp = 200 →
     json_body resp = inr data →
     r.1 = inr (mkFlask 200 (JDict [("success", JBool true); ("data", data);
                                    ("esn", JStr esn); ("timestamp", JStr now)]))) ∧
  (∀ msg, result_of (up 0%nat rq) = (false, JNull, Some msg) → msg ≠ "Not found" →
     r.1 = inr (mkFlask 500 (esn_error_envelope now esn (Some msg)))).
Proof.
  intros rq r. subst r. unfold run. rewrite get_inventory_by_esn_run. fold rq.
  cbn [fst snd length app]. split_and!.
  - done.
  - intros resp Ho Hs. rewrite (result_of_status _ _ Ho) by lia.
    rewrite Hs. done.
  - intros resp data Ho Hs Hb. by rewrite (result_of_succeeded _ _ _ Ho Hs Hb).
  - intros msg -> Hne. by rewrite failure_status_other.
Qed.

(** C3: for every identifier the fetch-by-identifier view makes one
    upstream request and answers as follows.  When the upstream reports
    not-found (404), local 404 with [success: false]; when the upstream
    responds 200 (with its JSON body), local 200 with [success: true], the
    data, and the identifier echoed exactly as given; on every other
    failure (401, any other status, timeout, connection failure, any other
    exception, a 200 whose body does not decode), local 500.  The view
    recognises not-found by the client's message, so the statement is for
    upstreams whose unclassified exceptions do not print as the text
    "Not found", as none raised by the libraries does. *)
Theorem get_inventory_by_esn_statuses g up now esn :
  let rq := mkRequest (WHOLECELL_API_BASE g +:+ "?esn=" +:+ esn)
              (WHOLECELL_HEADERS g) None 30 in
  let o := up 0%nat rq in
  let r := run (get_inventory_by_esn g up now esn) in
  (∀ e, raises o e → exn_is_timeout e = false →
        exn_is_connection_error e = false → exn_str e ≠ "Not found") →
  r.2 = [rq] ∧
  (∀ resp, o = inr resp → status_code resp = 404 →
     r.1 = inr (mkFlask 404
                  (JDict [("success", JBool false); ("error", JStr "Not found");
                          ("esn", JStr esn); ("timestamp", JStr now)]))) ∧
  (∀ resp data, o = inr resp → status_code resp = 200 →
     json_body resp = inr data →
     r.1 = inr (mkFlask 200
                  (JDict [("success", JBool true); ("data", data);
                          ("esn", JStr esn); ("timestamp", JStr now)]))) ∧
  (¬ succeeded o → (∀ resp, o = inr resp → status_code resp ≠ 404) →
   ∃ msg,
     r.1 = inr (mkFlask 500
                  (JDict [("success", JBool false); ("error", JStr msg);
                          ("esn", JStr esn); ("timestamp", JStr now)]))).
Proof.
  intros rq o r Hmsg. subst r. unfold run. rewrite get_inventory_by_esn_run.
  cbn [fst snd length app]. fold rq. fold o. clearbody o. split_and!.
  - done.
  - intros resp Ho Hs. rewrite (result_of_status _ _ Ho) by lia.
    rewrite Hs. done.
  - intros resp data Ho Hs Hb. by rewrite (result_of_succeeded _ _ _ Ho Hs Hb).
  - intros Hfail H404.
    assert (Hexn : ∀ e, raises o e →
              ∃ msg, result_of o = (false, JNull, Some msg) ∧ msg ≠ "Not found").
    { intros e He. rewrite (result_of_raises _ _ He). unfold failure_of.
      destruct (exn_is_timeout e) eqn:Ht; [by eexists|].
      destruct (exn_is_connection_error e) eqn:Hc; [by eexists|].
      eexists. split; [done|]. by apply Hmsg. }
    assert (Hres : ∃ msg, result_of o = (false, JNull, Some msg) ∧ msg ≠ "Not found").
    { destruct o as [e | resp].
      - apply (Hexn e). by left.
      - destruct (decide (status_code resp = 200)) as [Hs | Hs].
        + destruct (json_body resp) as [e | data] eqn:Hb.
          * apply (Hexn e). right. by exists resp.
          * destruct Hfail. by exists resp, data.
        + rewrite (result_of_status (inr resp) resp eq_refl Hs).
          case_bool_decide; [by eexists|].
          case_bool_decide as Hnf; [by destruct (H404 resp eq_refl)|].
          eexists. split; [done|]. apply api_error_is_not_not_found. }
    destruct Hres as (msg & -> & Hne). exists msg.
    by rewrite failure_status_other.
Qed.

Lemma get_inventory_by_esn_statuses_witness :
  ∃ msg,
    (run (get_inventory_by_esn sample_globals
            (always (inl (mkExn false false "Invalid URL"))) sample_now "X")).1 =
      inr (mkFlask 500
             (JDict [("success", JBool false); ("error", JStr msg);
                     ("esn", JStr "X"); ("timestamp", JStr sample_now)])).
Proof.
  destruct (get_inventory_by_esn_statuses sample_globals
              (always (inl (mkExn false false "Invalid URL"))) sample_now "X")
    as (_ & _ & _ & Hfail).
  - intros e [[= <-] | (resp & Hresp & _)] _ _; [discriminate | discriminate Hresp].
  - apply Hfail.
    + intros (resp & data & Hresp & _). discriminate Hresp.
    + intros resp Hresp. discriminate Hresp.
Defined.

(** C7: when the single upstream call of a request times out, the list
    view, the fetch-by-identifier view and the diagnostic view each answer
    with status 500 and the error message "Request timed out", which is not
    the message of a connection error. *)
Theorem timeout_is_surfaced_as_500 g up now e :
  exn_is_timeout e = true →
  (∀ rq, up 0%nat rq = inl e) →
  (∀ query,
     (run (get_all_inventory g up now (MultiDict_of_pairs query))).1 =
       inr (mkFlask 500 (error_envelope now (Some "Request timed out")))) ∧
  (∀ esn,
     (run (get_inventory_by_esn g up now esn)).1 =
       inr (mkFlask 500 (esn_error_envelope now esn (Some "Request timed out")))) ∧
  (∀ esn,
     (run (test_esn_detailed g up now esn)).1 =
       inr (mkFlask 500 (esn_error_envelope now esn (Some "Request timed out")))) ∧
  "Request timed out" ≠ "Could not connect to Wholecell API".
Proof.
  intros Ht Hup. split_and!.
  - intros query. unfold run. rewrite get_all_inventory_run. cbn [fst length].
    rewrite Hup. cbn [result_of]. by rewrite failure_of_timeout.
  - intros esn. unfold run. rewrite get_inventory_by_esn_run. cbn [fst length].
    rewrite Hup. cbn [result_of]. by rewrite failure_of_timeout.
  - intros esn. unfold run. rewrite test_esn_detailed_run. cbn [fst length].
    rewrite Hup. cbn [result_of]. by rewrite failure_of_timeout.
  - done.
Qed.

Lemma timeout_is_surfaced_as_500_witness :
  (run (get_inventory_by_esn sample_globals
          (always (inl (mkExn true false "read timed out"))) sample_now "X")).1 =
    inr (mkFlask 500 (esn_error_envelope sample_now "X" (Some "Request timed out"))).
Proof.
  destruct (timeout_is_surfaced_as_500 sample_globals
              (always (inl (mkExn true false "read timed out"))) sample_now
              (mkExn true false "read timed out") eq_refl (λ _, eq_refl))
    as (_ & Hesn & _).
  apply Hesn.
Defined.

(** C8, as stated, fails on the list view: an upstream 404 is answered with
    500 there, not 404. *)
Lemma list_view_surfaces_not_found_as_500 :
  ¬ surfaces_not_found_as_404
      (λ up, get_all_inventory sample_globals up sample_now (MultiDict_of_pairs [])).
Proof. intros H. specialize (H JNull). vm_compute in H. discriminate H. Qed.

(** C8 (amended): which status a failure gets depends on the view.  On the
    fetch-by-identifier view and on the diagnostic view an upstream 401 is
    answered with status 500 and the message "Authentication failed"; an
    upstream 404 with status 404; a timeout, a connection failure, any other
    upstream status, and any other exception whose message is not the text
    "Not found", with status 500.  On the list view every failure, not-found
    included, is answered with status 500. *)
Theorem failure_statuses_by_view g up now esn query :
  let rq := mkRequest (WHOLECELL_API_BASE g +:+ "?esn=" +:+ esn)
              (WHOLECELL_HEADERS g) None 30 in
  let o := up 0%nat rq in
  let by_esn := (run (get_inventory_by_esn g up now esn)).1 in
  let detailed := (run (test_esn_detailed g up now esn)).1 in
  let reported (code : Z) (msg : string) :=
    by_esn = inr (mkFlask code (esn_error_envelope now esn (Some msg))) ∧
    detailed = inr (mkFlask code (esn_error_envelope now esn (Some msg))) in
  (∀ resp, o = inr resp → status_code resp = 401 →
     reported 500 "Authentication failed") ∧
  (∀ resp, o = inr resp → status_code resp = 404 → reported 404 "Not found") ∧
  (∀ e, raises o e → exn_is_timeout e = true → reported 500 "Request timed out") ∧
  (∀ e, raises o e → exn_is_timeout e = false →
     exn_is_connection_error e = true →
     reported 500 "Could not connect to Wholecell API") ∧
  (∀ resp, o = inr resp → status_code resp ≠ 200 → status_code resp ≠ 401 →
     status_code resp ≠ 404 →
     reported 500 ("API error: " +:+ pretty (status_code resp))) ∧
  (∀ e, raises o e → exn_is_timeout e = false →
     exn_is_connection_error e = false → exn_str e ≠ "Not found" →
     reported 500 (exn_str e)) ∧
  (¬ succeeded (up 0%nat (mkRequest (inventory_url g (first_values query))
                            (WHOLECELL_HEADERS g) None 30)) →
   http_status (run (get_all_inventory g up now (MultiDict_of_pairs query))).1 = 500).
Proof.
  intros rq o by_esn detailed reported.
  assert (Hrep : ∀ code msg,
            result_of o = (false, JNull, Some msg) →
            failure_status (Some msg) = code → reported code msg).
  { intros code msg Hres Hcode. subst reported by_esn detailed. unfold run.
    rewrite get_inventory_by_esn_run, test_esn_detailed_run.
    cbn [fst length]. fold rq. fold o. by rewrite Hres, Hcode. }
  split_and!.
  - intros resp Ho Hs. apply Hrep; [|done].
    rewrite (result_of_status _ _ Ho) by lia. by rewrite Hs.
  - intros resp Ho Hs. apply Hrep; [|done].
    rewrite (result_of_status _ _ Ho) by lia. by rewrite Hs.
  - intros e He Ht. apply Hrep; [|done].
    by rewrite (result_of_raises _ _ He), failure_of_timeout.
  - intros e He Ht Hc. apply Hrep; [|done].
    by rewrite (result_of_raises _ _ He), failure_of_connection.
  - intros resp Ho H200 H401 H404. apply Hrep.
    + rewrite (result_of_status _ _ Ho) by done.
      by rewrite !bool_decide_eq_false_2.
    + apply failure_status_other, api_error_is_not_not_found.
  - intros e He Ht Hc Hmsg. apply Hrep.
    + by rewrite (result_of_raises _ _ He), failure_of_other.
    + by apply failure_status_other.
  - intros Hfail. unfold run. rewrite get_all_inventory_run. cbn [fst length].
    by destruct (result_of_not_succeeded _ Hfail) as [msg ->].
Qed.

Lemma failure_statuses_by_view_witness :
  (run (get_inventory_by_esn sample_globals (always (responds 401 JNull))
          sample_now "X")).1
    = inr (mkFlask 500 (esn_error_envelope sample_now "X"
                          (Some "Authentication failed"))) ∧
  (run (get_inventory_by_esn sample_globals (always (responds 404 JNull))
          sample_now "X")).1
    = inr (mkFlask 404 (esn_error_envelope sample_now "X" (Some "Not found"))) ∧
  http_status (run (get_all_inventory sample_globals (always (responds 404 JNull))
                      sample_now (MultiDict_of_pairs []))).1 = 500.
Proof.
  split_and!.
  - destruct (failure_statuses_by_view sample_globals (always (responds 401 JNull))
                sample_now "X" []) as (H401 & _).
    by destruct (H401 _ eq_refl eq_refl).
  - destruct (failure_statuses_by_view sample_globals (always (responds 404 JNull))
                sample_now "X" []) as (_ & H404 & _).
    by destruct (H404 _ eq_refl eq_refl).
  - destruct (failure_statuses_by_view sample_globals (always (responds 404 JNull))
                sample_now "X" []) as (_ & _ & _ & _ & _ & _ & Hlist).
    apply Hlist. intros (resp & data & Ho & Hs & _).
    injection Ho as <-. discriminate Hs.
Defined.

(** ** The batch view, [/api/test/known-imeis] *)

Lemma extract_fields_dict d log :
  extract_fields (JDict d) log = (inr (extracted_of d), log).
Proof.
  unfold extract_fields, extracted_of, nested_field, bind, py_get, ret.
  destruct (dict_lookup d "product") as [[]|];
    destruct (dict_lookup d "product_variation") as [[]|]; reflexivity.
Qed.

Lemma success_entry_object result data d log :
  select_item data = JDict d → d ≠ [] →
  success_entry result data log =
    (inr (JDict (dict_set (dict_set (dict_set result "found" (JBool true))
                             "data" data)
                   "extracted" (extracted_of d))),
     log).
Proof.
  intros Hitem Hne. unfold success_entry. rewrite Hitem.
  destruct d as [| kv d]; [done|]. cbn [truthy].
  unfold bind. by rewrite extract_fields_dict.
Qed.

Lemma success_entry_falsy result data log :
  truthy (select_item data) = false →
  success_entry result data log =
    (inr (JDict (dict_set (dict_set result "found" (JBool true)) "data" data)), log).
Proof. intros H. unfold success_entry. by rewrite H. Qed.

(** C4, at an input where it fails: the upstream answers the first
    identifier with status 200 and the JSON body [[1]].  The selected item
    is the integer 1, which is truthy and has no [get]: the view raises
    [AttributeError] after one upstream call, and Flask answers 500. *)
Theorem test_known_imeis_raises_on_non_object_item :
  run (test_known_imeis sample_globals (always (responds 200 (JList [JInt 1])))
         sample_now)
  = (inl (AttributeError "'int' object has no attribute 'get'"),
     [imei_request sample_globals "H95DHMF9Q1GC"]) ∧
  http_status
    (run (test_known_imeis sample_globals (always (responds 200 (JList [JInt 1])))
            sample_now)).1 = 500.
Proof. split; reflexivity. Qed.

(** C5, as stated, fails: for the successful payload [{}] (an item with
    no [product] and no other field) the guard [if item:] skips the
    extraction, and the entry has no ['extracted'] at all. *)
Lemma empty_item_is_not_extracted : ¬ extraction_yields_four_fields (JDict []).
Proof.
  intros (entry & fields & Hrun & Hex & _).
  vm_compute in Hrun. injection Hrun as <-. vm_compute in Hex. discriminate Hex.
Qed.

(** C5 (amended): when the item selected from a successful payload (the
    first element of a non-empty list, or the payload itself when it is an
    object) is a non-empty object, the entry gets an ['extracted'] dict with
    exactly the fields esn, model, grade and total_price_paid, and nothing is
    raised; esn and total_price_paid are the item's values (null when
    absent); model is [product.model] when [product] is an object, and null
    when [product] is absent or not an object or has no [model]; likewise
    grade with [product_variation.grade].  The reference item yields
    [{esn: "X", model: "M1", grade: "A", total_price_paid: 10}].  When the
    selected item is falsy (no item, or an empty object) the extraction is
    skipped and the entry has no ['extracted']. *)
Theorem extraction_of_object_items :
  (∀ result data d log,
     select_item data = JDict d → d ≠ [] →
     ∃ model grade,
       success_entry result data log =
         (inr (JDict (dict_set (dict_set (dict_set result "found" (JBool true))
                                  "data" data)
                        "extracted"
                        (JDict [("esn", default JNull (dict_lookup d "esn"));
                                ("model", model);
                                ("grade", grade);
                                ("total_price_paid",
                                 default JNull (dict_lookup d "total_price_paid"))]))),
          log) ∧
       (∀ p, dict_lookup d "product" = Some (JDict p) →
             model = default JNull (dict_lookup p "model")) ∧
       ((∀ p, dict_lookup d "product" ≠ Some (JDict p)) → model = JNull) ∧
       (∀ v, dict_lookup d "product_variation" = Some (JDict v) →
             grade = default JNull (dict_lookup v "grade")) ∧
       ((∀ v, dict_lookup d "product_variation" ≠ Some (JDict v)) → grade = JNull)) ∧
  run (extract_fields reference_item) =
    (inr (JDict [("esn", JStr "X"); ("model", JStr "M1"); ("grade", JStr "A");
                 ("total_price_paid", JInt 10)]), []) ∧
  (∀ result data log,
     truthy (select_item data) = false →
     success_entry result data log =
       (inr (JDict (dict_set (dict_set result "found" (JBool true)) "data" data)),
        log)).
Proof.
  split_and!.
  - intros result data d log Hitem Hne.
    exists (nested_field d "product" "model"),
           (nested_field d "product_variation" "grade").
    split; [by apply success_entry_object|].
    unfold nested_field. split_and!.
    + by intros p ->.
    + intros Hno.
      destruct (dict_lookup d "product") as [[| | | | | | sub]|]; try done.
      by destruct (Hno sub).
    + by intros v ->.
    + intros Hno.
      destruct (dict_lookup d "product_variation") as [[| | | | | | sub]|]; try done.
      by destruct (Hno sub).
  - reflexivity.
  - apply success_entry_falsy.
Qed.

Lemma extraction_of_object_items_witness :
  success_entry [("imei", JStr "H95DHMF9Q1GC"); ("success", JBool true)]
    (JList [JDict [("esn", JStr "X"); ("product", JStr "unknown")]]) [] =
    (inr (JDict [("imei", JStr "H95DHMF9Q1GC"); ("success", JBool true);
                 ("found", JBool true);
                 ("data", JList [JDict [("esn", JStr "X"); ("product", JStr "unknown")]]);
                 ("extracted",
                  JDict [("esn", JStr "X"); ("model", JNull); ("grade", JNull);
                         ("total_price_paid", JNull)])]), []).
Proof.
  destruct extraction_of_object_items as (Hobj & _ & _).
  destruct (Hobj [("imei", JStr "H95DHMF9Q1GC"); ("success", JBool true)]
              (JList [JDict [("esn", JStr "X"); ("product", JStr "unknown")]])
              [("esn", JStr "X"); ("product", JStr "unknown")] []
              eq_refl ltac:(discriminate))
    as (model & grade & Hrun & _ & Hmodel & _ & Hgrade).
  rewrite Hrun. rewrite Hmodel by (intros p; vm_compute; discriminate).
  rewrite Hgrade by (intros v; vm_compute; discriminate).
  reflexivity.
Defined.

Lemma test_one_imei_run g up imei log :
  (∀ resp data,
     up (length log) (imei_request g imei) = inr resp →
     status_code resp = 200 → json_body resp = inr data →
     item_is_object_or_falsy data) →
  ∃ b rest,
    test_one_imei g up imei log =
      (inr (JDict (("imei", JStr imei) :: ("success", JBool b) :: rest)),
       log ++ [imei_request g imei]).
Proof.
  intros Hshape. unfold test_one_imei, bind.
  rewrite make_wholecell_request_run. fold (imei_request g imei).
  destruct (result_of _) as [[[] data] error] eqn:Hres.
  - assert (error = None) as ->.
    { unfold result_of, failure_of in Hres. repeat case_match; by simplify_eq. }
    apply result_of_success in Hres as (resp & Ho & Hs & Hb).
    destruct (Hshape resp data Ho Hs Hb) as [Hfalsy | [d Hd]].
    + rewrite success_entry_falsy by done. by eexists _, _.
    + destruct d as [| kv d].
      * rewrite success_entry_falsy by (by rewrite Hd). by eexists _, _.
      * rewrite (success_entry_object _ _ (kv :: d)) by done. by eexists _, _.
  - by eexists _, _.
Qed.

Lemma test_loop_run g up imeis results log :
  (∀ n rq resp data,
     up n rq = inr resp → status_code resp = 200 → json_body resp = inr data →
     item_is_object_or_falsy data) →
  ∃ entries,
    test_loop g up imeis results log =
      (inr (results ++ entries), log ++ (imei_request g <$> imeis)) ∧
    Forall2 (λ imei r, subscript r "imei" = JStr imei ∧
                       ∃ b, subscript r "success" = JBool b) imeis entries.
Proof.
  intros Hshape. revert results log.
  induction imeis as [| imei imeis IH]; intros results log.
  - exists []. split; [|constructor]. cbn. by rewrite !app_nil_r.
  - destruct (test_one_imei_run g up imei log) as (b & rest & Hone).
    { intros resp data. apply Hshape. }
    destruct (IH (results ++ [JDict (("imei", JStr imei) :: ("success", JBool b) :: rest)])
                (log ++ [imei_request g imei])) as (entries & Hloop & Hall).
    exists (JDict (("imei", JStr imei) :: ("success", JBool b) :: rest) :: entries).
    split.
    + cbn [test_loop]. unfold bind. rewrite Hone, Hloop.
      by rewrite <- !app_assoc.
    + constructor; [|done]. split; [done|]. by exists b.
Qed.

(** What the batch view does keep of its contract: as long as the item
    selected from every successful payload is an object or falsy, the view
    answers 200 with [total_tested] 3, [successful + failed] 3 and one entry
    per identifier in the order of [known_imeis], after one upstream request
    per identifier in that same order. *)
Lemma test_known_imeis_summary g up now :
  (∀ n rq resp data,
     up n rq = inr resp → status_code resp = 200 → json_body resp = inr data →
     item_is_object_or_falsy data) →
  ∃ results successful failed,
    run (test_known_imeis g up now) =
      (inr (mkFlask 200
              (JDict [("total_tested", JInt 3); ("successful", JInt successful);
                      ("failed", JInt failed); ("results", JList results);
                      ("timestamp", JStr now)])),
       imei_request g <$> known_imeis) ∧
    successful + failed = 3 ∧
    (λ r, subscript r "imei") <$> results = JStr <$> known_imeis.
Proof.
  intros Hshape.
  destruct (test_loop_run g up known_imeis [] [] Hshape) as (entries & Hloop & Hall).
  exists entries. eexists _, _. split_and!.
  - unfold run, test_known_imeis, bind. rewrite Hloop. reflexivity.
  - cbn [length known_imeis]. lia.
  - clear Hloop. induction Hall as [| imei r imeis entries [Himei _] _ IH]; [done|].
    rewrite !fmap_cons. by rewrite Himei, IH.
Qed.

(** ** Start-up and the configuration view *)

Lemma load_module_without_credentials (environ : gmap string string) :
  str_truthy (environ !! "WHOLECELL_APP_ID") = false ∨
  str_truthy (environ !! "WHOLECELL_APP_SECRET") = false →
  load_module environ = mkProcess [LogError credentials_diagnostic] (Some 1) None.
Proof.
  intros H. unfold load_module.
  destruct H as [-> | ->]; [done|]. by rewrite orb_true_r.
Qed.

Lemma str_truthy_false o : o = None ∨ o = Some "" → str_truthy o = false.
Proof. by intros [-> | ->]. Qed.

(** A process that got past the module top holds both credentials, each a
    non-empty string, and the effective base URL. *)
Lemma load_module_globals (environ : gmap string string) g :
  globals (load_module environ) = Some g →
  ∃ app_id app_secret,
    WHOLECELL_APP_ID g = Some app_id ∧ app_id ≠ "" ∧
    WHOLECELL_APP_SECRET g = Some app_secret ∧ app_secret ≠ "" ∧
    WHOLECELL_API_BASE g = default default_api_base (environ !! "WHOLECELL_API_BASE").
Proof.
  unfold load_module.
  destruct (environ !! "WHOLECELL_APP_ID") as [app_id|] eqn:Hid; [|done].
  destruct (environ !! "WHOLECELL_APP_SECRET") as [app_secret|] eqn:Hsec;
    [|by rewrite orb_true_r].
  cbn [str_truthy]. rewrite !negb_involutive.
  case_bool_decide as Hid'; [done|]. case_bool_decide as Hsec'; [done|].
  cbn [orb]. destruct (encode_ascii _); [done|].
  intros [= <-]. by exists app_id, app_secret.
Qed.

(** C6: when the application id or the application secret is missing from
    the environment or empty, a run of the script logs the credentials
    diagnostic as its only event, exits with status 1, never reaches
    [app.run] (no listener is bound), and no module globals (hence no
    partial credentials) are left to serve requests with. *)
Theorem startup_fails_without_credentials
    (py_int : string → option Z) (environ : gmap string string) :
  environ !! "WHOLECELL_APP_ID" = None ∨ environ !! "WHOLECELL_APP_ID" = Some "" ∨
  environ !! "WHOLECELL_APP_SECRET" = None ∨
  environ !! "WHOLECELL_APP_SECRET" = Some "" →
  let p := main py_int environ in
  trace p = [LogError credentials_diagnostic] ∧
  (∃ code, exit_status p = Some code ∧ code ≠ 0) ∧
  globals p = None ∧
  (∀ host port debug, Listen host port debug ∉ trace p) ∧
  load_module environ = p.
Proof.
  intros H p.
  assert (Hload : load_module environ =
                    mkProcess [LogError credentials_diagnostic] (Some 1) None).
  { apply load_module_without_credentials.
    destruct H as [H | [H | [H | H]]]; [left | left | right | right];
      apply str_truthy_false; auto. }
  assert (Hp : p = mkProcess [LogError credentials_diagnostic] (Some 1) None).
  { subst p. unfold main. by rewrite Hload. }
  rewrite Hp, Hload. cbn [trace exit_status globals]. split_and!; try done.
  - by exists 1.
  - intros host port debug [Heq | Hin%elem_of_nil]%elem_of_cons; [discriminate Heq | done].
Qed.

Lemma startup_fails_without_credentials_witness :
  trace (main (λ _, None) {[ "WHOLECELL_APP_ID" := "app" ]}) =
    [LogError credentials_diagnostic] ∧
  exit_status (main (λ _, None)
                 (<["WHOLECELL_APP_ID" := "app"]> {[ "WHOLECELL_APP_SECRET" := "" ]}))
    = Some 1.
Proof.
  split.
  - apply (startup_fails_without_credentials (λ _, None)
             {[ "WHOLECELL_APP_ID" := "app" ]}).
    right. right. left. reflexivity.
  - destruct (startup_fails_without_credentials (λ _, None)
                (<["WHOLECELL_APP_ID" := "app"]> {[ "WHOLECELL_APP_SECRET" := "" ]}))
      as (_ & _ & _ & _ & <-).
    + right. right. right. reflexivity.
    + reflexivity.
Defined.

(** With both credentials set (ASCII) and a usable port the script does
    reach [app.run]: the start-up model is not one that always exits. *)
Example startup_listens_when_configured :
  let p := main (λ _, Some 8080)
             (<["WHOLECELL_APP_ID" := "app"]>
                (<["WHOLECELL_APP_SECRET" := "secret"]> {[ "PORT" := "8080" ]})) in
  exit_status p = None ∧ last (trace p) = Some (Listen "0.0.0.0" 8080 false) ∧
  globals p = Some (mkGlobals (Some "app") (Some "secret") default_api_base
                      (WHOLECELL_HEADERS sample_globals)).
Proof. vm_compute. done. Qed.

(** C9: the body of [/api/config] is the base URL and two booleans, and
    nothing else; for non-empty secrets both booleans are [true] whatever
    the secrets are, so two configurations that differ only in their secret
    values (and in the headers derived from them) get the same response.
    The same holds for any two environments a process can start from, as
    long as they agree on the base URL. *)
Theorem get_config_hides_secrets :
  (∀ base id1 secret1 headers1 id2 secret2 headers2,
     id1 ≠ "" → secret1 ≠ "" → id2 ≠ "" → secret2 ≠ "" →
     run (get_config (mkGlobals (Some id1) (Some secret1) base headers1)) =
       run (get_config (mkGlobals (Some id2) (Some secret2) base headers2)) ∧
     run (get_config (mkGlobals (Some id1) (Some secret1) base headers1)) =
       (inr (mkFlask 200
               (JDict [("api_base", JStr base);
                       ("app_id_configured", JBool true);
                       ("app_secret_configured", JBool true)])), [])) ∧
  (∀ (env1 env2 : gmap string string) g1 g2,
     env1 !! "WHOLECELL_API_BASE" = env2 !! "WHOLECELL_API_BASE" →
     globals (load_module env1) = Some g1 →
     globals (load_module env2) = Some g2 →
     run (get_config g1) = run (get_config g2)).
Proof.
  assert (Hbody : ∀ g app_id app_secret,
            WHOLECELL_APP_ID g = Some app_id → app_id ≠ "" →
            WHOLECELL_APP_SECRET g = Some app_secret → app_secret ≠ "" →
            run (get_config g) =
              (inr (mkFlask 200
                      (JDict [("api_base", JStr (WHOLECELL_API_BASE g));
                              ("app_id_configured", JBool true);
                              ("app_secret_configured", JBool true)])), [])).
  { intros g app_id app_secret Hid Hid' Hsec Hsec'.
    unfold run, get_config, ret. rewrite Hid, Hsec. cbn [str_truthy].
    by rewrite !bool_decide_eq_false_2. }
  split.
  - intros base id1 secret1 headers1 id2 secret2 headers2 H1 H2 H3 H4.
    rewrite (Hbody _ id1 secret1), (Hbody _ id2 secret2) by done. done.
  - intros env1 env2 g1 g2 Hbase Hg1 Hg2.
    apply load_module_globals in Hg1 as (i1 & s1 & ? & ? & ? & ? & Hb1).
    apply load_module_globals in Hg2 as (i2 & s2 & ? & ? & ? & ? & Hb2).
    rewrite (Hbody _ i1 s1), (Hbody _ i2 s2) by done.
    by rewrite Hb1, Hb2, Hbase.
Qed.

Lemma get_config_hides_secrets_witness :
  run (get_config (mkGlobals (Some "app") (Some "secret") "https://u" [])) =
  run (get_config (mkGlobals (Some "other") (Some "hunter2") "https://u" [])).
Proof.
  destruct get_config_hides_secrets as (Hsame & _).
  apply Hsame; discriminate.
Defined.

(** * Further properties of the views *)

(** ** The single-call views always answer *)

(** The list view, the fetch-by-identifier view and the diagnostic view
    never let an exception escape, whatever the upstream does: each makes
    its one request and returns a response.  The list view answers 200 or
    500; the other two answer 200 with [success: true], or 404 or 500 with
    the failure envelope; and the [error] of a failure envelope is always a
    string, never null. *)
Theorem single_call_views_always_answer g up now :
  (∀ query, ∃ rq resp,
     run (get_all_inventory g up now (MultiDict_of_pairs query)) = (inr resp, [rq]) ∧
     (status resp = 200 ∨
      status resp = 500 ∧ ∃ msg, body resp = error_envelope now (Some msg))) ∧
  (∀ esn, ∃ rq resp,
     run (get_inventory_by_esn g up now esn) = (inr resp, [rq]) ∧
     (status resp = 200 ∧ subscript (body resp) "success" = JBool true ∨
      (status resp = 404 ∨ status resp = 500) ∧
      ∃ msg, body resp = esn_error_envelope now esn (Some msg))) ∧
  (∀ esn, ∃ rq resp,
     run (test_esn_detailed g up now esn) = (inr resp, [rq]) ∧
     (status resp = 200 ∧ subscript (body resp) "success" = JBool true ∨
      (status resp = 404 ∨ status resp = 500) ∧
      ∃ msg, body resp = esn_error_envelope now esn (Some msg))).
Proof.
  assert (Hres : ∀ o, (∃ data, result_of o = (true, data, None)) ∨
                      (∃ msg, result_of o = (false, JNull, Some msg))).
  { intros o. unfold result_of, failure_of.
    destruct o as [e | resp]; repeat case_match; eauto. }
  assert (Hstatus : ∀ msg, failure_status (Some msg) = 404 ∨
                           failure_status (Some msg) = 500).
  { intros msg. unfold failure_status. case_bool_decide; auto. }
  split_and!.
  - intros query. unfold run. rewrite get_all_inventory_run. cbn [length app].
    eexists _, _. split; [reflexivity|].
    destruct (Hres (up 0%nat (mkRequest (inventory_url g (first_values query))
                                (WHOLECELL_HEADERS g) None 30)))
      as [[data ->] | [msg ->]]; [by left | right; eauto].
  - intros esn. unfold run. rewrite get_inventory_by_esn_run. cbn [length app].
    eexists _, _. split; [reflexivity|].
    destruct (Hres (up 0%nat (mkRequest (WHOLECELL_API_BASE g +:+ "?esn=" +:+ esn)
                                (WHOLECELL_HEADERS g) None 30)))
      as [[data ->] | [msg ->]]; [by left | right; eauto].
  - intros esn. unfold run. rewrite test_esn_detailed_run. cbn [length app].
    eexists _, _. split; [reflexivity|].
    destruct (Hres (up 0%nat (mkRequest (WHOLECELL_API_BASE g +:+ "?esn=" +:+ esn)
                                (WHOLECELL_HEADERS g) None 30)))
      as [[data ->] | [msg ->]]; [by left | right; eauto].
Qed.

(** The diagnostic view mirrors the fetch-by-identifier view: for the same
    identifier and the same upstream behaviour both send the same request
    and answer with the same status; a failure gives the very same response,
    and a success differs only by the added [analysis] and [message]. *)
Theorem test_esn_detailed_mirrors_get_inventory_by_esn g up now esn :
  let plain := run (get_inventory_by_esn g up now esn) in
  let detailed := run (test_esn_detailed g up now esn) in
  plain.2 = detailed.2 ∧
  ∃ r1 r2,
    plain.1 = inr r1 ∧ detailed.1 = inr r2 ∧
    status r1 = status r2 ∧
    (status r1 ≠ 200 → r1 = r2) ∧
    (status r1 = 200 →
     ∃ data,
       body r1 = JDict [("success", JBool true); ("data", data);
                        ("esn", JStr esn); ("timestamp", JStr now)] ∧
       body r2 = JDict [("success", JBool true); ("data", data);
                        ("analysis", analyse data);
                        ("esn", JStr esn); ("timestamp", JStr now);
                        ("message",
                         JStr "Check server logs for detailed response structure")]).
Proof.
  intros plain detailed. subst plain detailed. unfold run.
  rewrite get_inventory_by_esn_run, test_esn_detailed_run. cbn [fst snd length].
  split; [done|].
  destruct (result_of _) as [[[] data] error]; eexists _, _;
    (split; [reflexivity|]); (split; [reflexivity|]); cbn [status body].
  - split_and!; [done | done | intros _; by exists data].
  - split_and!; [done | done |].
    unfold failure_status. by case_bool_decide.
Qed.

Lemma test_esn_detailed_mirrors_get_inventory_by_esn_witness :
  (run (get_inventory_by_esn sample_globals (always (responds 404 JNull))
          sample_now "X")).1 =
  (run (test_esn_detailed sample_globals (always (responds 404 JNull))
          sample_now "X")).1.
Proof.
  destruct (test_esn_detailed_mirrors_get_inventory_by_esn sample_globals
              (always (responds 404 JNull)) sample_now "X")
    as (_ & r1 & r2 & H1 & H2 & _ & Hfail & _).
  rewrite H1, H2. f_equal. apply Hfail.
  vm_compute in H1. injection H1 as <-. discriminate.
Defined.

(** ** The batch view, outcome by outcome *)

Lemma extract_fields_not_dict item log :
  isinstance_dict item = false →
  extract_fields item log = (inl (attribute_error_of item), log).
Proof. intros H. by destruct item. Qed.

Lemma test_one_imei_cases g up imei log :
  let o := up (length log) (imei_request g imei) in
  test_one_imei g up imei log =
    (if raises_on o
     then match result_of o with
          | (_, data, _) => inl (attribute_error_of (select_item data))
          end
     else inr (entry_of imei o),
     log ++ [imei_request g imei]).
Proof.
  intros o. unfold test_one_imei, bind, raises_on, entry_of.
  rewrite make_wholecell_request_run. fold (imei_request g imei). fold o.
  destruct (result_of o) as [[[] data] error]; [|reflexivity].
  unfold success_entry, bad_item, found_entry.
  destruct (truthy (select_item data)) eqn:Ht; cbn [andb].
  - destruct (isinstance_dict (select_item data)) eqn:Hd; cbn [negb].
    + destruct (select_item data) as [| | | | | |d]; try done.
      destruct d as [| kv d]; [done|].
      unfold bind. by rewrite extract_fields_dict.
    + unfold bind. by rewrite extract_fields_not_dict.
  - destruct (select_item data) as [| | | | | |[| kv d]]; try done.
Qed.

Lemma test_loop_entries g up imeis results log :
  Forall (λ o, raises_on o = false) (outcomes_from g up (length log) imeis) →
  test_loop g up imeis results log =
    (inr (results ++ zip_with entry_of imeis (outcomes_from g up (length log) imeis)),
     log ++ (imei_request g <$> imeis)).
Proof.
  revert results log. induction imeis as [| imei imeis IH]; intros results log Hok.
  - cbn. by rewrite !app_nil_r.
  - cbn [outcomes_from] in Hok. apply Forall_cons in Hok as [Hone Hrest].
    cbn [test_loop]. unfold bind. rewrite test_one_imei_cases, Hone.
    rewrite IH by (by rewrite length_app, Nat.add_1_r).
    rewrite length_app, Nat.add_1_r. cbn [outcomes_from zip_with fmap list_fmap].
    by rewrite <- !app_assoc.
Qed.

Lemma test_loop_first_bad g up before imei after results log :
  Forall (λ o, raises_on o = false) (outcomes_from g up (length log) before) →
  raises_on (up (length log + length before)%nat (imei_request g imei)) = true →
  ∃ data,
    result_of (up (length log + length before)%nat (imei_request g imei))
      = (true, data, None) ∧
    test_loop g up (before ++ imei :: after) results log =
      (inl (attribute_error_of (select_item data)),
       log ++ (imei_request g <$> before ++ [imei])).
Proof.
  revert results log. induction before as [| x before IH]; intros results log Hok Hbad.
  - cbn [length] in Hbad. rewrite Nat.add_0_r in Hbad.
    cbn [app test_loop]. unfold bind. rewrite test_one_imei_cases, Hbad.
    rewrite Nat.add_0_r. unfold raises_on in Hbad.
    destruct (result_of _) as [[[] data] error] eqn:Hres; [|done].
    exists data. split; [|done].
    unfold result_of, failure_of in Hres. repeat case_match; by simplify_eq.
  - cbn [outcomes_from] in Hok. apply Forall_cons in Hok as [Hone Hrest].
    destruct (IH (results ++ [entry_of x (up (length log) (imei_request g x))])
                (log ++ [imei_request g x])) as (data & Hres & Hloop).
    + by rewrite length_app, Nat.add_1_r.
    + rewrite length_app, Nat.add_1_r. cbn [length] in Hbad.
      by rewrite Nat.add_succ_comm.
    + rewrite length_app, Nat.add_1_r, Nat.add_succ_comm in Hres.
      exists data. split; [exact Hres|].
      cbn [app test_loop]. unfold bind. rewrite test_one_imei_cases, Hone.
      cbn [app] in Hloop. rewrite Hloop.
      by rewrite <- !app_assoc.
Qed.

Lemma entry_of_success imei o :
  subscript (entry_of imei o) "imei" = JStr imei ∧
  subscript (entry_of imei o) "success" = JBool (call_succeeded o) ∧
  subscript (entry_of imei o) "found" = JBool (call_succeeded o).
Proof.
  unfold entry_of, call_succeeded.
  by destruct (result_of o) as [[[] data] error].
Qed.

Lemma success_count_entries imeis os :
  length imeis = length os →
  length (filter (λ r, truthy (subscript r "success") = true)
            (zip_with entry_of imeis os)) =
  length (filter (λ o, call_succeeded o = true) os).
Proof.
  revert os. induction imeis as [| imei imeis IH]; intros [| o os] Hlen;
    try done.
  cbn [zip_with]. rewrite !filter_cons.
  destruct (entry_of_success imei o) as (_ & Hs & _). rewrite Hs. cbn [truthy].
  injection Hlen as Hlen. specialize (IH os Hlen).
  destruct (call_succeeded o); repeat case_decide; try done.
  cbn [length]. by rewrite IH.
Qed.

Lemma outcomes_from_length g up n imeis :
  length (outcomes_from g up n imeis) = length imeis.
Proof.
  revert n. induction imeis as [| imei imeis IH]; intros n; [done|].
  cbn [outcomes_from length]. by rewrite IH.
Qed.

(** As long as no successful payload selects a truthy item that is not an
    object, the batch view answers 200 after exactly one request per
    identifier, in the order of [known_imeis]; [results] has one entry per
    identifier in that order, each with [success] and [found] telling
    whether its call succeeded; [successful] is the number of calls that
    succeeded and [failed] the rest of the three. *)
Theorem test_known_imeis_reports_each_outcome g up now :
  let outcomes := outcomes_from g up 0 known_imeis in
  let successful :=
    Z.of_nat (length (filter (λ o, call_succeeded o = true) outcomes)) in
  Forall (λ o, raises_on o = false) outcomes →
  ∃ results,
    run (test_known_imeis g up now) =
      (inr (mkFlask 200
              (JDict [("total_tested", JInt 3);
                      ("successful", JInt successful);
                      ("failed", JInt (3 - successful));
                      ("results", JList results);
                      ("timestamp", JStr now)])),
       imei_request g <$> known_imeis) ∧
    0 ≤ successful ≤ 3 ∧
    Forall2 (λ r io,
               subscript r "imei" = JStr io.1 ∧
               subscript r "success" = JBool (call_succeeded io.2) ∧
               subscript r "found" = JBool (call_succeeded io.2))
      results (zip known_imeis outcomes).
Proof.
  intros outcomes successful Hok.
  exists (zip_with entry_of known_imeis outcomes). split_and!.
  - unfold run, test_known_imeis, bind.
    rewrite (test_loop_entries g up known_imeis [] [] Hok).
    cbn [app length]. fold outcomes.
    rewrite success_count_entries by (by subst outcomes; rewrite outcomes_from_length).
    reflexivity.
  - lia.
  - subst successful.
    pose proof (length_filter (λ o, call_succeeded o = true) outcomes) as Hle.
    subst outcomes. rewrite outcomes_from_length in Hle. cbn [known_imeis length] in Hle.
    lia.
  - subst outcomes. cbn [known_imeis outcomes_from zip_with zip].
    repeat constructor; apply entry_of_success.
Qed.

Lemma test_known_imeis_reports_each_outcome_witness :
  ∃ results,
    run (test_known_imeis sample_globals
           (λ n _, if decide (n = 1%nat) then inl (mkExn true false "slow")
                   else responds 200 (JList []))
           sample_now) =
      (inr (mkFlask 200
              (JDict [("total_tested", JInt 3); ("successful", JInt 2);
                      ("failed", JInt 1); ("results", JList results);
                      ("timestamp", JStr sample_now)])),
       imei_request sample_globals <$> known_imeis).
Proof.
  destruct (test_known_imeis_reports_each_outcome sample_globals
              (λ n _, if decide (n = 1%nat) then inl (mkExn true false "slow")
                      else responds 200 (JList []))
              sample_now) as (results & Hrun & _).
  - repeat constructor.
  - exists results. exact Hrun.
Defined.

(** The batch view gives up at the first successful payload whose selected
    item is truthy and not an object: the [AttributeError] for that item
    escapes the view, the identifiers after it are never requested, and the
    results gathered so far are lost. *)
Theorem test_known_imeis_stops_at_first_bad_item g up now before imei after :
  known_imeis = before ++ imei :: after →
  Forall (λ o, raises_on o = false) (outcomes_from g up 0 before) →
  raises_on (up (length before) (imei_request g imei)) = true →
  ∃ data,
    result_of (up (length before) (imei_request g imei)) = (true, data, None) ∧
    run (test_known_imeis g up now) =
      (inl (attribute_error_of (select_item data)),
       imei_request g <$> before ++ [imei]).
Proof.
  intros Hsplit Hok Hbad.
  destruct (test_loop_first_bad g up before imei after [] [] Hok Hbad)
    as (data & Hres & Hloop).
  exists data. split; [exact Hres|].
  unfold run, test_known_imeis, bind. by rewrite Hsplit, Hloop.
Qed.

Lemma test_known_imeis_stops_at_first_bad_item_witness :
  run (test_known_imeis sample_globals
         (λ n _, if decide (n = 1%nat) then responds 200 (JList [JStr "x"])
                 else responds 404 JNull)
         sample_now) =
    (inl (AttributeError "'str' object has no attribute 'get'"),
     [imei_request sample_globals "H95DHMF9Q1GC";
      imei_request sample_globals "F9FG5XAJQ1GC"]).
Proof.
  destruct (test_known_imeis_stops_at_first_bad_item sample_globals
              (λ n _, if decide (n = 1%nat) then responds 200 (JList [JStr "x"])
                      else responds 404 JNull)
              sample_now ["H95DHMF9Q1GC"] "F9FG5XAJQ1GC" ["F9GG5BXXQ1GC"]
              eq_refl ltac:(repeat constructor) eq_refl)
    as (data & Hres & Hrun).
  rewrite Hrun. vm_compute in Hres. injection Hres as <-. reflexivity.
Defined.

(** ** Every outbound request is authenticated *)






(** ** The query string of the list view reads back as the parameters *)

Lemma split_on_no_occurrence c s : occurs c s = false → split_on c s = [s].
Proof.
  induction s as [| a s IH]; [done|]. cbn [occurs split_on].
  intros [Ha Hs]%orb_false_iff. rewrite Ha, (IH Hs). done.
Qed.

Lemma split_on_app c a b :
  occurs c a = false → split_on c (a +:+ String c b) = a :: split_on c b.
Proof.
  induction a as [| x a IH]; cbn [occurs]; intros H.
  - change ("" +:+ String c b) with (String c b). cbn [split_on].
    by rewrite bool_decide_eq_true_2.
  - apply orb_false_iff in H as [Hx Ha].
    change (String x a +:+ String c b) with (String x (a +:+ String c b)).
    cbn [split_on]. rewrite Hx, (IH Ha). done.
Qed.

Lemma partition_on_app c k v :
  occurs c k = false → partition_on c (k +:+ String c v) = (k, v).
Proof.
  induction k as [| x k IH]; cbn [occurs]; intros H.
  - change ("" +:+ String c v) with (String c v). cbn [partition_on].
    by rewrite bool_decide_eq_true_2.
  - apply orb_false_iff in H as [Hx Hk].
    change (String x k +:+ String c v) with (String x (k +:+ String c v)).
    cbn [partition_on]. rewrite Hx, (IH Hk). done.
Qed.

Lemma occurs_app c a b : occurs c (a +:+ b) = occurs c a || occurs c b.
Proof.
  induction a as [| x a IH]; [done|].
  change (String x a +:+ b) with (String x (a +:+ b)).
  cbn [occurs]. rewrite IH. by rewrite orb_assoc.
Qed.

(** When no key holds [&] or [=] and no value holds [&], cutting the query
    string the list view builds at every [&], and each piece at its first
    [=], gives back the parameters, in order: nothing is lost or merged. *)
Theorem query_string_reads_back (params : list (string * string)) :
  Forall (λ kv, occurs "&" kv.1 = false ∧ occurs "=" kv.1 = false ∧
                occurs "&" kv.2 = false) params →
  params ≠ [] →
  parse_query (query_string params) = params.
Proof.
  unfold parse_query, query_string.
  induction params as [| [k v] params IH]; [done|]. intros Hall _.
  apply Forall_cons in Hall as [(Hk1 & Hk2 & Hv) Hall]. cbn [fst snd] in *.
  assert (Hpair : occurs "&" (k +:+ "=" +:+ v) = false).
  { rewrite !occurs_app, Hk1, Hv. done. }
  assert (Hpart : partition_on "=" (k +:+ "=" +:+ v) = (k, v)).
  { by apply (partition_on_app "="%char k v). }
  destruct params as [| kv' params].
  - change (String.concat "&" (map (λ kv, kv.1 +:+ "=" +:+ kv.2) [(k, v)]))
      with (k +:+ "=" +:+ v).
    rewrite split_on_no_occurrence by done.
    change (partition_on "=" <$> [k +:+ "=" +:+ v])
      with [partition_on "=" (k +:+ "=" +:+ v)].
    by rewrite Hpart.
  - change (String.concat "&" (map (λ kv, kv.1 +:+ "=" +:+ kv.2) ((k, v) :: kv' :: params)))
      with ((k +:+ "=" +:+ v) +:+
            String "&" (String.concat "&" (map (λ kv, kv.1 +:+ "=" +:+ kv.2) (kv' :: params)))).
    rewrite split_on_app by done. rewrite fmap_cons, Hpart.
    f_equal. by apply IH.
Qed.

Lemma query_string_reads_back_witness :
  parse_query (query_string [("page", "2"); ("status", "Available")]) =
    [("page", "2"); ("status", "Available")].
Proof.
  apply query_string_reads_back; [|done].
  repeat constructor.
Defined.

(** ** Start-up, in full *)

Lemma bytes_of_string_app a b :
  bytes_of_string (a +:+ b) = bytes_of_string a ++ bytes_of_string b.
Proof.
  induction a as [| c a IH]; [done|].
  change (String c a +:+ b) with (String c (a +:+ b)).
  cbn [bytes_of_string]. by rewrite IH.
Qed.

Lemma ascii_only_app a b : ascii_only (a +:+ b) = ascii_only a && ascii_only b.
Proof. unfold ascii_only. by rewrite bytes_of_string_app, forallb_app. Qed.

Lemma encode_ascii_auth_string app_id app_secret :
  encode_ascii (app_id +:+ ":" +:+ app_secret) =
    if ascii_only app_id && ascii_only app_secret
    then inr (bytes_of_string (app_id +:+ ":" +:+ app_secret))
    else inl (mkExn false false "UnicodeEncodeError").
Proof.
  unfold encode_ascii. fold (ascii_only (app_id +:+ ":" +:+ app_secret)).
  rewrite !ascii_only_app. change (ascii_only ":") with true.
  by rewrite andb_true_l.
Qed.

Lemma load_module_with_credentials (environ : gmap string string) app_id app_secret :
  environ !! "WHOLECELL_APP_ID" = Some app_id → app_id ≠ "" →
  environ !! "WHOLECELL_APP_SECRET" = Some app_secret → app_secret ≠ "" →
  load_module environ =
    if ascii_only app_id && ascii_only app_secret then
      mkProcess [] None
        (Some (mkGlobals (Some app_id) (Some app_secret)
                 (default default_api_base (environ !! "WHOLECELL_API_BASE"))
                 [("Authorization",
                   "Basic " +:+
                     b64encode_bytes (bytes_of_string (app_id +:+ ":" +:+ app_secret)));
                  ("X-App-Id", app_id);
                  ("Accept", "application/json")]))
    else mkProcess [Traceback (mkExn false false "UnicodeEncodeError")] (Some 1) None.
Proof.
  intros Hid Hid' Hsec Hsec'. unfold load_module. rewrite Hid, Hsec.
  cbn [str_truthy default]. rewrite !bool_decide_eq_false_2 by done. cbn [negb orb].
  unfold id. rewrite encode_ascii_auth_string.
  by destruct (ascii_only app_id && ascii_only app_secret).
Qed.

Lemma load_module_cases (environ : gmap string string) :
  (∃ app_id app_secret, usable_credentials environ app_id app_secret) ∨
  (load_module environ = mkProcess [LogError credentials_diagnostic] (Some 1) None) ∨
  (load_module environ =
     mkProcess [Traceback (mkExn false false "UnicodeEncodeError")] (Some 1) None).
Proof.
  destruct (environ !! "WHOLECELL_APP_ID") as [app_id|] eqn:Hid; last first.
  { right. left. apply load_module_without_credentials. rewrite Hid. by left. }
  destruct (environ !! "WHOLECELL_APP_SECRET") as [app_secret|] eqn:Hsec; last first.
  { right. left. apply load_module_without_credentials. rewrite Hsec. by right. }
  destruct (decide (app_id = "")) as [-> | Hid'].
  { right. left. apply load_module_without_credentials. rewrite Hid. by left. }
  destruct (decide (app_secret = "")) as [-> | Hsec'].
  { right. left. apply load_module_without_credentials. rewrite Hsec. by right. }
  pose proof (load_module_with_credentials environ app_id app_secret
                Hid Hid' Hsec Hsec') as Hload.
  destruct (ascii_only app_id) eqn:Ha; [destruct (ascii_only app_secret) eqn:Hb|].
  - left. exists app_id, app_secret. by repeat split.
  - right. right. exact Hload.
  - right. right. exact Hload.
Qed.

(** The module top gets past its checks exactly when both credentials are
    set, non-empty and ASCII.  It then holds the credentials, the base URL
    of the environment (the default only when the variable is unset: an
    empty value is kept as it is), and the three headers: Basic
    authorization over [id:secret], the application id, and the JSON accept
    header. *)
Theorem module_loads_iff_credentials_usable (environ : gmap string string) g :
  globals (load_module environ) = Some g ↔
  ∃ app_id app_secret,
    usable_credentials environ app_id app_secret ∧
    g = mkGlobals (Some app_id) (Some app_secret)
          (default default_api_base (environ !! "WHOLECELL_API_BASE"))
          [("Authorization",
            "Basic " +:+
              b64encode_bytes (bytes_of_string (app_id +:+ ":" +:+ app_secret)));
           ("X-App-Id", app_id);
           ("Accept", "application/json")].
Proof.
  split.
  - intros Hg.
    destruct (load_module_cases environ)
      as [(app_id & app_secret & Hu) | [Hload | Hload]];
      [| by rewrite Hload in Hg | by rewrite Hload in Hg].
    exists app_id, app_secret. split; [done|].
    destruct Hu as (Hid & Hid' & Hsec & Hsec' & Ha & Hb).
    rewrite (load_module_with_credentials _ _ _ Hid Hid' Hsec Hsec'), Ha, Hb in Hg.
    cbn in Hg. by injection Hg as <-.
  - intros (app_id & app_secret & (Hid & Hid' & Hsec & Hsec' & Ha & Hb) & ->).
    by rewrite (load_module_with_credentials _ _ _ Hid Hid' Hsec Hsec'), Ha, Hb.
Qed.

Lemma module_loads_iff_credentials_usable_witness :
  globals (load_module (<["WHOLECELL_APP_ID" := "app"]>
                          (<["WHOLECELL_APP_SECRET" := "secret"]>
                             {[ "WHOLECELL_API_BASE" := "" ]}))) =
    Some (mkGlobals (Some "app") (Some "secret") ""
            [("Authorization", "Basic YXBwOnNlY3JldA==");
             ("X-App-Id", "app");
             ("Accept", "application/json")]).
Proof.
  apply module_loads_iff_credentials_usable.
  exists "app", "secret". split; [by repeat split | reflexivity].
Defined.

(** Credentials that are set and non-empty but hold a character outside
    ASCII stop the script with an uncaught [UnicodeEncodeError]: a traceback
    and exit status 1, with nothing logged and no listener bound. *)
Theorem non_ascii_credentials_crash_at_startup
    (py_int : string → option Z) (environ : gmap string string) app_id app_secret :
  environ !! "WHOLECELL_APP_ID" = Some app_id → app_id ≠ "" →
  environ !! "WHOLECELL_APP_SECRET" = Some app_secret → app_secret ≠ "" →
  ascii_only app_id = false ∨ ascii_only app_secret = false →
  main py_int environ =
    mkProcess [Traceback (mkExn false false "UnicodeEncodeError")] (Some 1) None.
Proof.
  intros Hid Hid' Hsec Hsec' Hna.
  assert (Hload : load_module environ =
            mkProcess [Traceback (mkExn false false "UnicodeEncodeError")] (Some 1) None).
  { rewrite (load_module_with_credentials _ _ _ Hid Hid' Hsec Hsec').
    destruct Hna as [-> | ->]; [done | by rewrite andb_false_r]. }
  unfold main. by rewrite Hload.
Qed.

Lemma non_ascii_credentials_crash_at_startup_witness :
  exit_status (main (λ _, Some 80)
                 (<["WHOLECELL_APP_ID" := "app"]>
                    {[ "WHOLECELL_APP_SECRET" := String (ascii_of_N 233) "" ]}))
    = Some 1.
Proof.
  rewrite (non_ascii_credentials_crash_at_startup (λ _, Some 80) _
             "app" (String (ascii_of_N 233) "")); [reflexivity | reflexivity
             | discriminate | reflexivity | discriminate | by right].
Defined.



(** In a process that got past the module top, the health view always
    reports [api_configured: true], with status 200 and without contacting
    the upstream. *)
Theorem health_check_reports_configured (environ : gmap string string) g now :
  globals (load_module environ) = Some g →
  run (health_check g now) =
    (inr (mkFlask 200 (JDict [("status", JStr "healthy");
                              ("timestamp", JStr now);
                              ("api_configured", JBool true)])), []).
Proof.
  intros (app_id & app_secret & Hid & Hid' & Hsec & Hsec' & _)%load_module_globals.
  unfold run, health_check, ret. rewrite Hid, Hsec. cbn [str_truthy].
  by rewrite !bool_decide_eq_false_2.
Qed.

Lemma health_check_reports_configured_witness :
  ∃ g, globals (load_module (<["WHOLECELL_APP_ID" := "app"]>
                               {[ "WHOLECELL_APP_SECRET" := "secret" ]})) = Some g ∧
       run (health_check g sample_now) =
         (inr (mkFlask 200 (JDict [("status", JStr "healthy");
                                   ("timestamp", JStr sample_now);
                                   ("api_configured", JBool true)])), []).
Proof.
  eexists. split; [reflexivity|].
  apply (health_check_reports_configured
           (<["WHOLECELL_APP_ID" := "app"]> {[ "WHOLECELL_APP_SECRET" := "secret" ]})).
  reflexivity.
Defined.

Lemma ascii_lower_is c (lower upper : ascii) :
  (lower, upper) ∈ [("t", "T"); ("r", "R"); ("u", "U"); ("e", "E")]%char →
  ascii_lower c = lower ↔ c = lower ∨ c = upper.
Proof.
  rewrite !elem_of_cons, elem_of_nil.
  intros [[= -> ->] | [[= -> ->] | [[= -> ->] | [[= -> ->] | []]]]];
    destruct c as [[] [] [] [] [] [] [] []]; vm_compute;
    (split; [intros [=]; auto | intros [[=] | [=]]; reflexivity]).
Qed.

(** Debug mode is on exactly when [DEBUG] is set to one of the sixteen
    upper/lower-case spellings of "true"; unset, empty or anything else
    (such as "1" or "yes") leaves it off. *)
Theorem debug_is_on_for_spellings_of_true (environ : gmap string string) :
  configured_debug environ = true ↔
  ∃ c1 c2 c3 c4 : ascii,
    environ !! "DEBUG" = Some (String c1 (String c2 (String c3 (String c4 "")))) ∧
    (c1 = "t" ∨ c1 = "T")%char ∧ (c2 = "r" ∨ c2 = "R")%char ∧
    (c3 = "u" ∨ c3 = "U")%char ∧ (c4 = "e" ∨ c4 = "E")%char.
Proof.
  unfold configured_debug. rewrite bool_decide_eq_true.
  assert (Hin : ∀ p, p ∈ [("t", "T"); ("r", "R"); ("u", "U"); ("e", "E")]%char →
                     p ∈ [("t", "T"); ("r", "R"); ("u", "U"); ("e", "E")]%char) by done.
  split.
  - destruct (environ !! "DEBUG") as [s|]; [|discriminate].
    cbn [from_option id].
    destruct s as [| c1 [| c2 [| c3 [| c4 [| c5 s]]]]]; try discriminate.
    cbn [str_lower]. intros [= H1 H2 H3 H4].
    exists c1, c2, c3, c4. split; [done|].
    split_and!; (eapply ascii_lower_is; [|eassumption]);
      rewrite !elem_of_cons; auto 6.
  - intros (c1 & c2 & c3 & c4 & -> & H1 & H2 & H3 & H4).
    cbn [from_option id str_lower].
    apply (ascii_lower_is c1 "t" "T") in H1; [| rewrite !elem_of_cons; auto 6].
    apply (ascii_lower_is c2 "r" "R") in H2; [| rewrite !elem_of_cons; auto 6].
    apply (ascii_lower_is c3 "u" "U") in H3; [| rewrite !elem_of_cons; auto 6].
    apply (ascii_lower_is c4 "e" "E") in H4; [| rewrite !elem_of_cons; auto 6].
    by rewrite H1, H2, H3, H4.
Qed.

Lemma debug_is_on_for_spellings_of_true_witness :
  configured_debug {[ "DEBUG" := "True" ]} = true ∧
  configured_debug {[ "DEBUG" := "1" ]} = false.
Proof.
  split.
  - apply debug_is_on_for_spellings_of_true.
    exists "T"%char, "r"%char, "u"%char, "e"%char.
    split; [reflexivity|]. split_and!; auto.
  - apply not_true_is_false. intros H.
    apply debug_is_on_for_spellings_of_true in H
      as (c1 & c2 & c3 & c4 & Heq & _).
    vm_compute in Heq. discriminate Heq.
Defined.

(** ** The header set identifies the credentials *)

Lemma list_ind3 {A} (P : list A → Prop) :
  P [] → (∀ a, P [a]) → (∀ a b, P [a; b]) →
  (∀ a b c l, P l → P (a :: b :: c :: l)) →
  ∀ l, P l.
Proof.
  intros H0 H1 H2 H3 l.
  enough (P l ∧ (∀ a, P (a :: l)) ∧ (∀ a b, P (a :: b :: l))) by tauto.
  induction l as [| x l (IH0 & IH1 & IH2)]; [by auto|].
  split_and!; auto.
Qed.

Lemma below_64_enumerated n : (n < 64)%N → n ∈ (N.of_nat <$> seq 0 64).
Proof.
  intros Hn. apply list_elem_of_fmap. exists (N.to_nat n).
  split; [by rewrite N2Nat.id|]. apply elem_of_seq. lia.
Qed.

Lemma b64_digit_inj n m :
  (n < 64)%N → (m < 64)%N → b64_digit n = b64_digit m → n = m.
Proof.
  intros Hn%below_64_enumerated Hm%below_64_enumerated.
  assert (Hall : Forall (λ n, Forall (λ m, b64_digit n = b64_digit m → n = m)
                                (N.of_nat <$> seq 0 64))
                   (N.of_nat <$> seq 0 64)).
  { apply (bool_decide_unpack _). by vm_compute. }
  rewrite Forall_forall in Hall. specialize (Hall n Hn).
  rewrite Forall_forall in Hall. exact (Hall m Hm).
Qed.

Lemma b64_digit_not_pad n : (n < 64)%N → b64_digit n ≠ "="%char.
Proof.
  intros Hn%below_64_enumerated.
  assert (Hall : Forall (λ n, b64_digit n ≠ "="%char) (N.of_nat <$> seq 0 64)).
  { apply (bool_decide_unpack _). by vm_compute. }
  rewrite Forall_forall in Hall. exact (Hall n Hn).
Qed.

Ltac euclid a d :=
  pose proof (N.div_mod a d ltac:(done));
  pose proof (N.mod_lt a d ltac:(done));
  let q := fresh "q" in let r := fresh "r" in
  set (q := (a / d)%N) in *; set (r := (a mod d)%N) in *; clearbody q r.

Lemma b64_quad_inj a b c a' b' c' :
  (a < 256)%N → (b < 256)%N → (c < 256)%N →
  (a' < 256)%N → (b' < 256)%N → (c' < 256)%N →
  b64_digit (a / 4) = b64_digit (a' / 4) →
  b64_digit ((a mod 4) * 16 + b / 16) = b64_digit ((a' mod 4) * 16 + b' / 16) →
  b64_digit ((b mod 16) * 4 + c / 64) = b64_digit ((b' mod 16) * 4 + c' / 64) →
  b64_digit (c mod 64) = b64_digit (c' mod 64) →
  a = a' ∧ b = b' ∧ c = c'.
Proof.
  intros Ha Hb Hc Ha' Hb' Hc' H1 H2 H3 H4.
  euclid a 4%N. euclid b 16%N. euclid c 64%N.
  euclid a' 4%N. euclid b' 16%N. euclid c' 64%N.
  apply b64_digit_inj in H1; [|lia..].
  apply b64_digit_inj in H2; [|lia..].
  apply b64_digit_inj in H3; [|lia..].
  apply b64_digit_inj in H4; [|lia..].
  lia.
Qed.

Lemma b64encode_bytes_inj bs1 bs2 :
  Forall (λ b, (b < 256)%N) bs1 → Forall (λ b, (b < 256)%N) bs2 →
  b64encode_bytes bs1 = b64encode_bytes bs2 → bs1 = bs2.
Proof.
  revert bs2. induction bs1 as [| a | a b | a b c bs1 IH] using list_ind3;
    intros bs2 H1 H2;
    destruct bs2 as [| a' [| b' [| c' bs2]]]; cbn [b64encode_bytes];
    try discriminate; try done;
    repeat match goal with
           | H : Forall _ (_ :: _) |- _ => apply Forall_cons in H as [? H]
           end.
  - (* [a] against [a'] *)
    intros [= Hd1 Hd2].
    destruct (b64_quad_inj a 0 0 a' 0 0) as (-> & _); try done; try lia.
    by rewrite !N.Div0.div_0_l, !N.add_0_r.
  - (* [a] against [a'; b'] *)
    intros [= _ _ Hpad]. exfalso. symmetry in Hpad. revert Hpad.
    apply b64_digit_not_pad. euclid b' 16%N. lia.
  - (* [a] against three or more *)
    intros [= _ _ Hpad]. exfalso. symmetry in Hpad. revert Hpad.
    apply b64_digit_not_pad. euclid b' 16%N. euclid c' 64%N. lia.
  - (* [a; b] against [a'] *)
    intros [= _ _ Hpad]. exfalso. revert Hpad.
    apply b64_digit_not_pad. euclid b 16%N. lia.
  - (* [a; b] against [a'; b'] *)
    intros [= Hd1 Hd2 Hd3].
    destruct (b64_quad_inj a b 0 a' b' 0) as (-> & -> & _); try done; try lia.
    by rewrite !N.Div0.div_0_l, !N.add_0_r.
  - (* [a; b] against three or more *)
    intros [= _ _ _ Hpad]. exfalso. symmetry in Hpad. revert Hpad.
    apply b64_digit_not_pad. euclid c' 64%N. lia.
  - (* three or more against [a'] *)
    intros [= _ _ Hpad]. exfalso. revert Hpad.
    apply b64_digit_not_pad. euclid b 16%N. euclid c 64%N. lia.
  - (* three or more against [a'; b'] *)
    intros [= _ _ _ Hpad]. exfalso. revert Hpad.
    apply b64_digit_not_pad. euclid c 64%N. lia.
  - (* three or more against three or more *)
    intros [= Hd1 Hd2 Hd3 Hd4 Hrest].
    destruct (b64_quad_inj a b c a' b' c') as (-> & -> & ->); try done.
    f_equal. f_equal. f_equal. by apply IH.
Qed.

Lemma bytes_of_string_bounded s : Forall (λ b, (b < 256)%N) (bytes_of_string s).
Proof.
  induction s as [| c s IH]; constructor; [apply N_ascii_bounded | done].
Qed.

Lemma bytes_of_string_inj s1 s2 :
  bytes_of_string s1 = bytes_of_string s2 → s1 = s2.
Proof.
  revert s2. induction s1 as [| c s1 IH]; intros [| c' s2]; try done.
  cbn [bytes_of_string]. intros [= Hc Hs].
  f_equal; [|by apply IH].
  by rewrite <- (ascii_N_embedding c), <- (ascii_N_embedding c'), Hc.
Qed.

(** Two processes that got past the module top send the same header set
    exactly when they hold the same application id and the same secret: the
    headers are a function of the credentials, and different credentials
    never yield the same headers. *)
Theorem headers_identify_credentials (env1 env2 : gmap string string) g1 g2 :
  globals (load_module env1) = Some g1 →
  globals (load_module env2) = Some g2 →
  WHOLECELL_HEADERS g1 = WHOLECELL_HEADERS g2 ↔
  WHOLECELL_APP_ID g1 = WHOLECELL_APP_ID g2 ∧
  WHOLECELL_APP_SECRET g1 = WHOLECELL_APP_SECRET g2.
Proof.
  intros Hg1 Hg2.
  assert (Hshape : ∀ env g, globals (load_module env) = Some g →
            ∃ app_id app_secret,
              WHOLECELL_APP_ID g = Some app_id ∧
              WHOLECELL_APP_SECRET g = Some app_secret ∧
              WHOLECELL_HEADERS g =
                [("Authorization",
                  "Basic " +:+
                    b64encode_bytes (bytes_of_string (app_id +:+ ":" +:+ app_secret)));
                 ("X-App-Id", app_id); ("Accept", "application/json")]).
  { intros env g Hg. destruct (load_module_cases env)
      as [(app_id & app_secret & Hid & Hid' & Hsec & Hsec' & Ha & Hb) | [Hf | Hf]];
      [| by rewrite Hf in Hg | by rewrite Hf in Hg].
    rewrite (load_module_with_credentials _ _ _ Hid Hid' Hsec Hsec'), Ha, Hb in Hg.
    cbn in Hg. injection Hg as <-. by exists app_id, app_secret. }
  destruct (Hshape _ _ Hg1) as (i1 & s1 & Hi1 & Hs1 & ->).
  destruct (Hshape _ _ Hg2) as (i2 & s2 & Hi2 & Hs2 & ->).
  rewrite Hi1, Hi2, Hs1, Hs2. split.
  - intros [= Hauth ->]. split; [done|]. f_equal.
    change (b64encode_bytes (bytes_of_string (i2 +:+ ":" +:+ s1)) =
            b64encode_bytes (bytes_of_string (i2 +:+ ":" +:+ s2))) in Hauth.
    apply b64encode_bytes_inj in Hauth; [|apply bytes_of_string_bounded..].
    apply bytes_of_string_inj in Hauth.
    apply (inj (String.app i2)) in Hauth. by apply (inj (String.app ":")) in Hauth.
  - by intros [[= ->] [= ->]].
Qed.

Lemma headers_identify_credentials_witness :
  WHOLECELL_HEADERS
    (mkGlobals (Some "app") (Some "secret") default_api_base
       [("Authorization", "Basic YXBwOnNlY3JldA=="); ("X-App-Id", "app");
        ("Accept", "application/json")]) ≠
  WHOLECELL_HEADERS
    (mkGlobals (Some "app") (Some "secres") default_api_base
       [("Authorization", "Basic YXBwOnNlY3Jlcw=="); ("X-App-Id", "app");
        ("Accept", "application/json")]).
Proof.
  intros Heq.
  apply (headers_identify_credentials
           (<["WHOLECELL_APP_ID" := "app"]> {[ "WHOLECELL_APP_SECRET" := "secret" ]})
           (<["WHOLECELL_APP_ID" := "app"]> {[ "WHOLECELL_APP_SECRET" := "secres" ]}))
    in Heq as [_ Hsec]; [discriminate Hsec | reflexivity | reflexivity].
Defined.

(** ** The identifier in the upstream URL *)




Lemma get_inventory_by_esn_contract_witness :
  (run (get_inventory_by_esn sample_globals
          (always (responds 200 (JList [JDict [("esn", JStr "X")]])))
          sample_now "X")).1 =
    inr (mkFlask 200
           (JDict [("success", JBool true);
                   ("data", JList [JDict [("esn", JStr "X")]]);
                   ("esn", JStr "X"); ("timestamp", JStr sample_now)])) ∧
  (run (get_inventory_by_esn sample_globals (always (responds 503 JNull))
          sample_now "X")).1 =
    inr (mkFlask 500 (esn_error_envelope sample_now "X" (Some "API error: 503"))).
Proof.
  split.
  - destruct (get_inventory_by_esn_contract sample_globals
                (always (responds 200 (JList [JDict [("esn", JStr "X")]])))
                sample_now "X") as (_ & _ & Hok & _).
    by eapply Hok.
  - destruct (get_inventory_by_esn_contract sample_globals
                (always (responds 503 JNull)) sample_now "X") as (_ & _ & _ & Hfail).
    apply Hfail; [reflexivity | discriminate].
Defined.
